(** * Multi-dimensional code analyzer: a shallow embedding and its properties

    The definitions below follow
    [skills/code-refactoring-analysis/scripts/analyze_multidim.py]
    (class [MultiDimensionalAnalyzer]).  Python dictionaries that are only
    looked up are finite maps, dictionaries that are iterated are association
    lists in insertion order, Python sets are [gset]s, and an exception is a
    constructor of the result type. *)

From Stdlib Require Import Ascii ZArith QArith Qround Qminmax.
From stdpp Require Import gmap strings list sorting.

#[local] Set Warnings "-clear-no-such-hyp,-register-all".

Local Open Scope string_scope.
Local Open Scope list_scope.
Local Open Scope Z_scope.

(** ** Results of fallible, possibly recursive Python code *)

Inductive result (A : Type) : Type :=
| Ok (a : A)
| ValueError          (* raised by [list.index] on a missing element *)
| OutOfFuel.          (* the recursion bound of the model was reached *)
Arguments Ok {A} a.
Arguments ValueError {A}.
Arguments OutOfFuel {A}.

(** * Python strings

    A [string] is read as a sequence of code points below 256; the
    predicates follow [str.isspace] and [str.isupper] on that range. *)

Module Text.

Definition ord (c : ascii) : Z := Z.of_N (N_of_ascii c).

(** [c.isspace()] *)
Definition isspace (c : ascii) : bool :=
  let n := ord c in
  ((9 <=? n) && (n <=? 13)) || ((28 <=? n) && (n <=? 32))
  || (n =? 133) || (n =? 160).

(** [c.isupper()] for a single character *)
Definition isupper (c : ascii) : bool :=
  let n := ord c in
  ((65 <=? n) && (n <=? 90)) || ((192 <=? n) && (n <=? 214))
  || ((216 <=? n) && (n <=? 222)).

(** [s.startswith('_')] *)
Definition startswith_underscore (s : string) : bool :=
  match s with
  | String c _ => bool_decide (c = "_"%char)
  | EmptyString => false
  end.

(** [s[0].isupper()], on a non-empty identifier *)
Definition first_isupper (s : string) : bool :=
  match s with
  | String c _ => isupper c
  | EmptyString => false
  end.

(** [text.split()]: the maximal runs of non-whitespace characters;
    [word] is the run read so far. *)
Fixpoint split_whitespace_from (word : string) (text : string) : list string :=
  match text with
  | EmptyString => if bool_decide (word = "") then [] else [word]
  | String c rest =>
      if isspace c then
        if bool_decide (word = "") then split_whitespace_from "" rest
        else word :: split_whitespace_from "" rest
      else split_whitespace_from (word +:+ String c "") rest
  end.

Definition split_whitespace (text : string) : list string :=
  split_whitespace_from "" text.

(** [' '.join(block.split())] *)
Definition normalize (block : string) : string :=
  String.concat " " (split_whitespace block).

(** [text.split(sep)] for a one-character separator; never empty. *)
Fixpoint split_on_from (sep : ascii) (field : string) (text : string) : list string :=
  match text with
  | EmptyString => [field]
  | String c rest =>
      if bool_decide (c = sep) then field :: split_on_from sep "" rest
      else split_on_from sep (field +:+ String c "") rest
  end.

Definition split_on (sep : ascii) (text : string) : list string :=
  split_on_from sep "" text.

(** [text.lstrip()], [text.strip()] *)
Fixpoint lstrip (text : string) : string :=
  match text with
  | String c rest => if isspace c then lstrip rest else text
  | EmptyString => EmptyString
  end.

Definition strip (text : string) : string :=
  String.rev (lstrip (String.rev (lstrip text))).

(** The inner [simple_hash] of [_detect_duplicates_with_hashing]: Python
    integers do not overflow, the mask is applied once at the end. *)
Fixpoint simple_hash_from (h : Z) (text : string) : Z :=
  match text with
  | EmptyString => h
  | String char rest => simple_hash_from ((Z.shiftl h 5 + h) + ord char) rest
  end.

Definition simple_hash (text : string) : Z :=
  Z.land (simple_hash_from 5381 text) 0xFFFFFFFF.

(** [text.replace(old, new)] for a non-empty [old]: occurrences are
    replaced from left to right without overlap; [skip] counts the
    characters of the current occurrence still to be dropped. *)
Fixpoint replace_from (old new : string) (skip : nat) (text : string) : string :=
  match text with
  | EmptyString => EmptyString
  | String c rest =>
      match skip with
      | S skip' => replace_from old new skip' rest
      | O =>
          if String.prefix old text
          then new +:+ replace_from old new (String.length old - 1) rest
          else String c (replace_from old new 0 rest)
      end
  end.

Definition replace (old new text : string) : string :=
  replace_from old new 0 text.

(** [part in text] for a non-empty [part] *)
Fixpoint contains (part text : string) : bool :=
  String.prefix part text
  || match text with
     | EmptyString => false
     | String _ rest => contains part rest
     end.

(** [len(text)] *)
Definition len (text : string) : Z := Z.of_nat (String.length text).

End Text.

(** * Parsed Python source ([ast.parse], [ast.walk])

    Only the node classes that the analyzer tests with [isinstance], and the
    fields it reads, are kept apart; every other node is [Other] with its
    child nodes.  Leaves that no test recognises ([alias], expression
    contexts, operators) are not listed among the children. *)

Module Ast.

(** [ast.alias]: [import name as asname] *)
Record alias := Alias {
  alias_name : string;
  asname : option string
}.

Inductive node : Type :=
| FunctionDef (name : string) (lineno : Z) (children : list node)
| AsyncFunctionDef (name : string) (lineno : Z) (children : list node)
| ClassDef (name : string) (lineno : Z) (end_lineno : option Z)
    (bases : list node) (body : list node) (decorator_list : list node)
| Import (names : list alias) (lineno : Z)
| ImportFrom (module : option string) (names : list alias) (lineno : Z)
| Name (id : string)
| Attribute (value : node) (attr : string)
| Call (func : node) (args : list node)
| Other (children : list node).

(** [ast.iter_child_nodes(node)], in field order. *)
Definition iter_child_nodes (n : node) : list node :=
  match n with
  | FunctionDef _ _ children => children
  | AsyncFunctionDef _ _ children => children
  | ClassDef _ _ _ bases body decorator_list => bases ++ body ++ decorator_list
  | Import _ _ => []
  | ImportFrom _ _ _ => []
  | Name _ => []
  | Attribute value _ => [value]
  | Call func args => func :: args
  | Other children => children
  end.

(** Number of nodes of a tree. *)
Fixpoint node_count (n : node) : nat :=
  let count_all := fix count_all (l : list node) : nat :=
    match l with
    | [] => 0%nat
    | x :: rest => (node_count x + count_all rest)%nat
    end in
  match n with
  | FunctionDef _ _ children => S (count_all children)
  | AsyncFunctionDef _ _ children => S (count_all children)
  | ClassDef _ _ _ bases body decorator_list =>
      S (count_all bases + (count_all body + count_all decorator_list))
  | Import _ _ => 1%nat
  | ImportFrom _ _ _ => 1%nat
  | Name _ => 1%nat
  | Attribute value _ => S (node_count value)
  | Call func args => S (node_count func + count_all args)
  | Other children => S (count_all children)
  end.

(** Number of nodes of a list of trees. *)
Definition count_nodes (l : list node) : nat :=
  foldr (λ n total, (node_count n + total)%nat) 0%nat l.

(** The loop of [ast.walk]: [todo] is the deque; a node is popped on the
    left, its children are appended on the right, and it is yielded. *)
Fixpoint walk_queue (fuel : nat) (todo : list node) : list node :=
  match fuel, todo with
  | S fuel', n :: rest => n :: walk_queue fuel' (rest ++ iter_child_nodes n)
  | _, _ => []
  end.

(** [ast.walk(node)]: one step per node of the tree. *)
Definition walk (n : node) : list node := walk_queue (node_count n) [n].

(** A source file of the project.  [path] is [str(py_file)] and
    [relative_path] is [str(py_file.relative_to(self.project_path))];
    [lines] is what [f.readlines()] returns ([None] when the file cannot be
    opened or decoded); [tree] is [ast.parse(f.read())] ([None] when
    reading or parsing raises). *)
Record source_file := SourceFile {
  path : string;
  relative_path : string;
  lines : option (list string);
  tree : option node
}.

End Ast.

(** * God classes ([_find_god_classes]) *)

Module GodClass.
Import Ast.

Record god_class := GodClassIssue {
  file : string;
  class : string;
  line : Z;
  method_count : Z;
  class_lines : Z;
  violation : string;
  severity : string
}.

(** [isinstance(item, (ast.FunctionDef, ast.AsyncFunctionDef))] *)
Definition is_method (item : node) : bool :=
  match item with
  | FunctionDef _ _ _ | AsyncFunctionDef _ _ _ => true
  | _ => false
  end.

(** [sum(1 for item in node.body if isinstance(item, ...))] *)
Definition count_methods (body : list node) : Z :=
  Z.of_nat (length (filter (λ item, is_method item = true) body)).

(** [node.end_lineno - node.lineno + 1 if hasattr(node, 'end_lineno') else 0] *)
Definition count_lines (lineno : Z) (end_lineno : option Z) : Z :=
  match end_lineno with
  | Some e => e - lineno + 1
  | None => 0
  end.

(** The body of [for node in ast.walk(tree)] for one node. *)
Definition check_node (path : string) (n : node) : list god_class :=
  match n with
  | ClassDef name lineno end_lineno _ body _ =>
      let method_count := count_methods body in
      let class_lines := count_lines lineno end_lineno in
      if (method_count >? 20) || (class_lines >? 500) then
        [GodClassIssue path name lineno method_count class_lines
           "Single Responsibility Principle" "medium"]
      else []
  | _ => []
  end.

(** A class over one of the two thresholds. *)
Definition is_god_class (n : node) : Prop :=
  match n with
  | ClassDef _ lineno end_lineno _ body _ =>
      count_methods body > 20 ∨ count_lines lineno end_lineno > 500
  | _ => False
  end.

#[global] Instance is_god_class_dec n : Decision (is_god_class n).
Proof. destruct n; simpl; apply _. Defined.

(** One iteration of [for py_file in python_files]; a file that cannot be
    parsed is skipped by [except Exception: continue]. *)
Definition check_file (f : source_file) : list god_class :=
  match tree f with
  | Some t => flat_map (check_node (relative_path f)) (walk t)
  | None => []
  end.

Definition _find_god_classes (python_files : list source_file) : list god_class :=
  flat_map check_file python_files.

End GodClass.

(** * Tight coupling ([_find_tight_coupling]) *)

Module TightCoupling.
Import Ast.

Record coupling_issue := CouplingIssue {
  file : string;
  class : string;
  line : Z;
  instantiations : Z;
  severity : string
}.

(** [isinstance(child, ast.Call)], [isinstance(child.func, ast.Name)] and
    [child.func.id[0].isupper()] *)
Definition is_instantiation (child : node) : bool :=
  match child with
  | Call (Name id) _ => Text.first_isupper id
  | _ => false
  end.

(** [isinstance(item, ast.FunctionDef) and item.name == '__init__'] *)
Definition is_init (item : node) : bool :=
  match item with
  | FunctionDef name _ _ => bool_decide (name = "__init__")
  | _ => false
  end.

(** The counter [init_instantiations] after the loop over [node.body]. *)
Definition count_instantiations (body : list node) : Z :=
  Z.of_nat (length (filter (λ child, is_instantiation child = true)
    (flat_map walk (filter (λ item, is_init item = true) body)))).

Definition check_node (path : string) (n : node) : list coupling_issue :=
  match n with
  | ClassDef name lineno _ _ body _ =>
      let init_instantiations := count_instantiations body in
      if init_instantiations >? 5 then
        [CouplingIssue path name lineno init_instantiations "medium"]
      else []
  | _ => []
  end.

Definition check_file (f : source_file) : list coupling_issue :=
  match tree f with
  | Some t => flat_map (check_node (relative_path f)) (walk t)
  | None => []
  end.

Definition _find_tight_coupling (python_files : list source_file)
    : list coupling_issue :=
  flat_map check_file python_files.

(** The constructor names instantiated in the initializers, one per call. *)
Definition instantiated_names (body : list node) : list string :=
  omap (λ child, match child with
                 | Call (Name id) _ =>
                     if Text.first_isupper id then Some id else None
                 | _ => None
                 end)
    (flat_map walk (filter (λ item, is_init item = true) body)).

(** The count the specification describes: distinct names, a repeated
    instantiation counted once. *)
Definition distinct_instantiations (body : list node) : Z :=
  Z.of_nat (length (remove_dups (instantiated_names body))).

End TightCoupling.

(** * Dead code ([_detect_dead_code]) *)

Module DeadCode.
Import Ast.

(** A value of [all_definitions]. *)
Record definition := Definition_ {
  def_file : string;
  def_name : string;
  def_line : Z;
  def_type : string
}.

(** An entry of [dead_code]. *)
Record dead_item := DeadItem {
  file : string;
  line : Z;
  type : string;
  name : string;
  message : string;
  severity : string
}.

(** [d[key] = value] on a dictionary kept in insertion order: an existing
    key keeps its place and takes the new value. *)
Fixpoint dict_set {V} (d : list (string * V)) (key : string) (value : V)
    : list (string * V) :=
  match d with
  | [] => [(key, value)]
  | (k, v) :: rest =>
      if bool_decide (k = key) then (key, value) :: rest
      else (k, v) :: dict_set rest key value
  end.

(** The variables shared by the whole run: they are created once, before
    the loop over the files, and never reset. *)
Record state := State {
  all_definitions : list (string * definition);
  all_usages : gset string;
  dead_code : list dead_item
}.

Definition add_definition (st : state) (path name : string) (lineno : Z)
    (kind : string) : state :=
  State (dict_set (all_definitions st) (path +:+ ":" +:+ name)
           (Definition_ path name lineno kind))
        (all_usages st) (dead_code st).

Definition add_usage (st : state) (name : string) : state :=
  State (all_definitions st) ({[name]} ∪ all_usages st) (dead_code st).

(** First loop over [ast.walk(tree)]: one node. *)
Definition collect_node (path : string) (st : state) (n : node) : state :=
  match n with
  | FunctionDef name lineno _ =>
      if Text.startswith_underscore name then st
      else add_definition st path name lineno "function"
  | ClassDef name lineno _ _ _ _ =>
      if Text.startswith_underscore name then st
      else add_definition st path name lineno "class"
  | Name id => add_usage st id
  | Attribute _ attr => add_usage st attr
  | Call func _ =>
      match func with
      | Name id => add_usage st id
      | Attribute _ attr => add_usage st attr
      | _ => st
      end
  | _ => st
  end.

(** [a or b] on strings, the left one possibly [None]. *)
Definition or_else (a : option string) (b : string) : string :=
  match a with
  | Some s => if bool_decide (s = "") then b else s
  | None => b
  end.

(** [alias.name.split('.')[0]] *)
Definition first_component (dotted : string) : string :=
  hd "" (Text.split_on "."%char dotted).

Definition unused_import (path : string) (lineno : Z) (reported : string)
    (a : alias) : dead_item :=
  DeadItem path lineno "unused_import" reported
    ("Unused import: " +:+ alias_name a) "low".

(** Second loop over [ast.walk(tree)]: the entries appended for one node,
    with the usage set as it is at that moment. *)
Definition check_import (path : string) (usages : gset string) (n : node)
    : list dead_item :=
  match n with
  | Import names lineno =>
      flat_map (λ a,
        let name := or_else (asname a) (first_component (alias_name a)) in
        if bool_decide (name ∉ usages) && negb (Text.startswith_underscore name)
        then [unused_import path lineno (alias_name a) a]
        else []) names
  | ImportFrom module names lineno =>
      flat_map (λ a,
        let name := or_else (asname a) (alias_name a) in
        if bool_decide (name ∉ usages) && negb (bool_decide (name = "*"))
           && negb (Text.startswith_underscore name)
        then [unused_import path lineno
                (match module with
                 | Some m => if bool_decide (m = "") then alias_name a
                             else m +:+ "." +:+ alias_name a
                 | None => alias_name a
                 end) a]
        else []) names
  | _ => []
  end.

(** One iteration of [for py_file in python_files]. *)
Definition process_file (st : state) (f : source_file) : state :=
  match tree f with
  | None => st
  | Some t =>
      let st1 := foldl (collect_node (relative_path f)) st (walk t) in
      State (all_definitions st1) (all_usages st1)
        (dead_code st1
           ++ flat_map (check_import (relative_path f) (all_usages st1)) (walk t))
  end.

Definition entry_points : list string := ["main"; "setup"; "teardown"; "run"].

Definition unused_definition (defn : definition) : dead_item :=
  DeadItem (def_file defn) (def_line defn)
    ("potentially_unused_" +:+ def_type defn) (def_name defn)
    ("Potentially unused " +:+ def_type defn +:+ ": " +:+ def_name defn) "low".

(** The loop [for key, defn in all_definitions.items()]: one entry. *)
Definition check_definition (usages : gset string) (entry : string * definition)
    : list dead_item :=
  let defn := entry.2 in
  if bool_decide (def_name defn ∉ usages)
     && bool_decide (def_name defn ∉ entry_points)
  then [unused_definition defn] else [].

(** The state after the loop over the files. *)
Definition scan (python_files : list source_file) : state :=
  foldl process_file (State [] ∅ []) python_files.

(** [dead_code] just before the final slice. *)
Definition collect_dead_code (python_files : list source_file) : list dead_item :=
  let st := scan python_files in
  dead_code st ++ flat_map (check_definition (all_usages st)) (all_definitions st).

Definition _detect_dead_code (python_files : list source_file) : list dead_item :=
  take 100 (collect_dead_code python_files).

(** The usages that the first loop finds in one file. *)
Definition usages_of_file (f : source_file) : gset string :=
  all_usages (process_file (State [] ∅ []) f).

(** The usages found in any of the files. *)
Definition usages_of_files (files : list source_file) : gset string :=
  ⋃ (usages_of_file <$> files).

(** The imports of a file that a given usage set leaves unused. *)
Definition unused_imports_of (usages : gset string) (f : source_file)
    : list dead_item :=
  match tree f with
  | Some t => flat_map (check_import (relative_path f) usages) (walk t)
  | None => []
  end.

End DeadCode.

(** * Duplicate blocks by hashing ([_detect_duplicates_with_hashing]) *)

Module Duplicates.
Import Ast.

(** An element of a bucket of [block_hashes]. *)
Record block := Block {
  block_file : string;
  block_line : Z
}.

(** An entry of [duplicates]. *)
Record duplicate := Duplicate {
  file : string;
  line : Z;
  similar_to : string;
  similar_line : Z;
  message : string;
  source : string
}.

Definition block_size : nat := 5.

Record state := State {
  duplicates : list duplicate;
  block_hashes : gmap Z (list block)
}.

(** [' '.join(''.join(lines[i:i + block_size]).split())] *)
Definition normalized_block (lines : list string) (i : nat) : string :=
  Text.normalize (String.concat "" (take block_size (drop i lines))).

(** The test of the inner [for existing in block_hashes[block_hash]]. *)
Definition far_enough (path : string) (i : nat) (existing : block) : Prop :=
  block_file existing ≠ path
  ∨ Z.abs (block_line existing - (Z.of_nat i + 1)) > Z.of_nat block_size.

#[global] Instance far_enough_dec path i existing :
  Decision (far_enough path i existing).
Proof. unfold far_enough. apply _. Defined.

(** The body of [for i in range(len(lines) - block_size + 1)]. *)
Definition process_window (path : string) (lines : list string)
    (st : state) (i : nat) : state :=
  let normalized := normalized_block lines i in
  if Text.len normalized <? 50 then st
  else
    let block_hash := Text.simple_hash normalized in
    let here := Block path (Z.of_nat i + 1) in
    match block_hashes st !! block_hash with
    | Some bucket =>
        let found :=
          match list_find (far_enough path i) bucket with
          | Some (_, existing) =>
              [Duplicate path (Z.of_nat i + 1) (block_file existing)
                 (block_line existing) "Similar code block (5 lines)"
                 "hash_detection"]
          | None => []
          end in
        State (duplicates st ++ found)
              (<[block_hash := bucket ++ [here]]> (block_hashes st))
    | None =>
        State (duplicates st) (<[block_hash := [here]]> (block_hashes st))
    end.

(** [range(len(lines) - block_size + 1)], empty for a short file. *)
Definition window_starts (lines : list string) : list nat :=
  seq 0 (length lines + 1 - block_size).

(** One iteration of [for py_file in python_files]. *)
Definition process_file (st : state) (f : source_file) : state :=
  match lines f with
  | None => st
  | Some ls => foldl (process_window (relative_path f) ls) st (window_starts ls)
  end.

(** [duplicates] just before the final slice. *)
Definition collect_duplicates (python_files : list source_file) : list duplicate :=
  duplicates (foldl process_file (State [] ∅) python_files).

Definition _detect_duplicates_with_hashing (python_files : list source_file)
    : list duplicate :=
  take 50 (collect_duplicates python_files).

(** The window of [block_size] lines that starts at line [line] of the file
    [path] exists and normalizes to [text]. *)
Definition window_of (files : list source_file) (path : string) (line : Z)
    (text : string) : Prop :=
  ∃ f ls i, f ∈ files ∧ relative_path f = path ∧ lines f = Some ls
            ∧ i ∈ window_starts ls ∧ line = Z.of_nat i + 1
            ∧ normalized_block ls i = text.

(** A reported pair is backed by two windows of at least 50 normalized
    characters with the same hash, in different files or more than
    [block_size] lines apart. *)
Definition justified (files : list source_file) (d : duplicate) : Prop :=
  ∃ text1 text2,
    window_of files (file d) (line d) text1
    ∧ window_of files (similar_to d) (similar_line d) text2
    ∧ 50 <= Text.len text1 ∧ 50 <= Text.len text2
    ∧ Text.simple_hash text1 = Text.simple_hash text2
    ∧ (similar_to d ≠ file d
       ∨ Z.abs (similar_line d - line d) > Z.of_nat block_size).

(** What the loop maintains, for a given notion [known] of window. *)
Definition backed (known : string → Z → string → Prop) (st : state) : Prop :=
  (∀ h bucket b, block_hashes st !! h = Some bucket → b ∈ bucket →
     ∃ text, known (block_file b) (block_line b) text
             ∧ 50 <= Text.len text ∧ Text.simple_hash text = h)
  ∧ (∀ d, d ∈ duplicates st →
       ∃ text1 text2,
         known (file d) (line d) text1
         ∧ known (similar_to d) (similar_line d) text2
         ∧ 50 <= Text.len text1 ∧ 50 <= Text.len text2
         ∧ Text.simple_hash text1 = Text.simple_hash text2
         ∧ (similar_to d ≠ file d
            ∨ Z.abs (similar_line d - line d) > Z.of_nat block_size)).

(** The block [b] is stored under the hash [h]. *)
Definition stored (st : state) (h : Z) (b : block) : Prop :=
  ∃ bucket, block_hashes st !! h = Some bucket ∧ b ∈ bucket.

End Duplicates.

(** * Import graph and cycle detector ([_detect_circular_dependencies]) *)

Module CycleDetector.

(** [import_graph: Dict[str, List[str]]], in insertion order. *)
Definition import_graph := list (string * list string).

(** [import_graph.get(module, [])] *)
Fixpoint graph_get (g : import_graph) (module : string) : list string :=
  match g with
  | [] => []
  | (k, imports) :: g' =>
      if bool_decide (k = module) then imports else graph_get g' module
  end.

(** [imported in import_graph] *)
Definition in_graph (module : string) (g : import_graph) : bool :=
  bool_decide (module ∈ g.*1).

(** The two sets shared by all calls of the inner [dfs]. *)
Record dfs_state := DfsState {
  visited : gset string;
  rec_stack : gset string
}.

(** [path.index(module)]: position of the first occurrence. *)
Fixpoint index (module : string) (path : list string) : option nat :=
  match path with
  | [] => None
  | x :: rest =>
      if bool_decide (x = module) then Some 0%nat else S <$> index module rest
  end.

(** Truth value of an [Optional[List[str]]] in [if cycle:]. *)
Definition truthy (cycle : option (list string)) : bool :=
  match cycle with
  | Some (_ :: _) => true
  | _ => false
  end.

(** The loop [for imported in import_graph.get(module, [])] of [dfs];
    [call] is the recursive call [dfs(imported, path.copy())].  When the
    loop runs to its end, [rec_stack.remove(module)] is executed and [None]
    is returned; a truthy cycle is returned at once, without the removal. *)
Fixpoint dfs_imports (call : dfs_state → string → result (dfs_state * option (list string)))
    (g : import_graph) (module : string) (st : dfs_state) (imports : list string)
    : result (dfs_state * option (list string)) :=
  match imports with
  | [] => Ok (DfsState (visited st) (rec_stack st ∖ {[module]}), None)
  | imported :: rest =>
      if in_graph imported g then
        match call st imported with
        | Ok (st', cycle) =>
            if truthy cycle then Ok (st', cycle)
            else dfs_imports call g module st' rest
        | ValueError => ValueError
        | OutOfFuel => OutOfFuel
        end
      else dfs_imports call g module st rest
  end.

(** The inner function [dfs(module, path)]. *)
Fixpoint dfs (fuel : nat) (g : import_graph) (st : dfs_state)
    (module : string) (path : list string)
    : result (dfs_state * option (list string)) :=
  match fuel with
  | O => OutOfFuel
  | S fuel' =>
      if bool_decide (module ∈ rec_stack st) then
        match index module path with
        | Some cycle_start => Ok (st, Some (drop cycle_start path))
        | None => ValueError
        end
      else if bool_decide (module ∈ visited st) then Ok (st, None)
      else
        let st1 := DfsState ({[module]} ∪ visited st) ({[module]} ∪ rec_stack st) in
        let path1 := path ++ [module] in
        dfs_imports (λ st' imported, dfs fuel' g st' imported path1)
          g module st1 (graph_get g module)
  end.

(** One entry of [circular_deps]. *)
Record circular_dep := CircularDep {
  cycle : list string;
  message : string;
  severity : string
}.

Definition make_dep (c : list string) : circular_dep :=
  CircularDep c
    ("Circular dependency: " +:+ String.concat " → " c +:+ " → " +:+ hd "" c)
    "high".

(** The loop [for module in import_graph] over the keys still to be
    treated; [deps] is [circular_deps]. *)
Fixpoint detect_loop (fuel : nat) (g : import_graph) (modules : list string)
    (st : dfs_state) (deps : list circular_dep) : result (list circular_dep) :=
  match modules with
  | [] => Ok deps
  | module :: rest =>
      if bool_decide (module ∈ visited st) then detect_loop fuel g rest st deps
      else
        match dfs fuel g st module [] with
        | Ok (st', c) =>
            if truthy c
            then detect_loop fuel g rest st' (deps ++ [make_dep (default [] c)])
            else detect_loop fuel g rest st' deps
        | ValueError => ValueError
        | OutOfFuel => OutOfFuel
        end
  end.

(** [_detect_circular_dependencies(import_graph)].  Every call of [dfs]
    that goes past its two membership tests adds a new key to [visited], so
    the recursion is never deeper than the number of keys plus one. *)
Definition _detect_circular_dependencies (g : import_graph)
    : result (list circular_dep) :=
  detect_loop (S (length g)) g g.*1 (DfsState ∅ ∅) [].

(** An import that is followed: the target is a key of the graph. *)
Definition edge (g : import_graph) (x y : string) : Prop :=
  x ∈ g.*1 ∧ y ∈ graph_get g x ∧ y ∈ g.*1.





End CycleDetector.

(** * The analyzer ([MultiDimensionalAnalyzer]) *)

Module Analyzer.
Import Ast.

(** ** External tools

    What [subprocess.run] followed by [json.loads] can give. *)
Inductive stdout (A : Type) : Type :=
| NoOutput                      (* empty standard output *)
| NotJson (error : string)      (* [json.loads] raises *)
| Json (data : A).
Arguments NoOutput {A}.
Arguments NotJson {A} error.
Arguments Json {A} data.

Inductive tool_run (A : Type) : Type :=
| NotInstalled (error : string)  (* [FileNotFoundError] *)
| Raised (error : string)        (* any other exception, e.g. a timeout *)
| Completed (returncode : Z) (out : stdout A).
Arguments NotInstalled {A} error.
Arguments Raised {A} error.
Arguments Completed {A} returncode out.

(** One function of [radon cc --json]. *)
Record radon_function := RadonFunction {
  radon_name : string;
  complexity : Z;
  radon_lineno : Z
}.

(** An issue as far as the scores read it: [i.get('severity')]. *)
Record finding := Finding {
  finding_file : string;
  finding_line : Z;
  finding_severity : option string;
  finding_message : string
}.

(** A message of [pylint --output-format=json]. *)
Record pylint_message := PylintMessage {
  symbol : string;
  pylint_path : string;
  pylint_line : Z
}.

(** The project on disk together with the answers of the external tools. *)
Record project := Project {
  project_path : string;          (* the positional argument of [main] *)
  path_exists : bool;
  py_files : list source_file;
  radon_cc : tool_run (list (string * list radon_function));
  bandit : tool_run (list finding);
  safety : tool_run (list string);
  pylint : tool_run (list pylint_message)
}.

(** [list(self.project_path.rglob('*.py'))]: nothing below a path that
    does not exist. *)
Definition rglob_py (p : project) : list source_file :=
  if path_exists p then py_files p else [].

(** [[f for f in python_files if not any(part in str(f) for part in parts)]] *)
Definition skip_directories (parts : list string) (files : list source_file)
    : list source_file :=
  filter (λ f, existsb (λ part, Text.contains part (path f)) parts = false) files.

Definition non_source : list string :=
  ["venv"; ".venv"; "__pycache__"; "node_modules"; ".git"; "build"; "dist"].

Definition non_source_or_test : list string := non_source ++ ["test"].

(** ** Detectors that work with regular expressions

    They are functions of the file (or of the files) whose results the
    scores only count by severity. *)
Record pattern_detectors := PatternDetectors {
  _find_nested_loops : source_file → list finding;
  _find_sync_operations : source_file → list finding;
  _find_memory_risks : source_file → list finding;
  _find_inefficient_patterns : source_file → list finding;
  _find_security_patterns : source_file → list finding;
  _find_ocp_violations : list source_file → list finding;
  _find_dip_violations : list source_file → list finding;
  _detect_extractable_patterns : list source_file → list finding
}.

(** ** State of the analyzer object *)
Record self := Self {
  tools_used : list string;
  tools_failed : list (string * string);
  files_analyzed : Z;
  files_skipped : Z
}.

Definition init : self := Self [] [] 0 0.

(** [_track_tool(tool_name, success, reason)] *)
Definition _track_tool (s : self) (tool_name : string) (success : bool)
    (reason : option string) : self :=
  if success then
    if bool_decide (tool_name ∈ tools_used s) then s
    else Self (tools_used s ++ [tool_name]) (tools_failed s)
           (files_analyzed s) (files_skipped s)
  else
    if bool_decide (tool_name ∈ (tools_failed s).*1) then s
    else Self (tools_used s)
           (tools_failed s ++ [(tool_name, DeadCode.or_else reason "unknown")])
           (files_analyzed s) (files_skipped s).

(** ** Confidence ([_finalize_meta])

    The value is a multiple of 0.05 before [round(_, 2)]; it is computed
    here over the rationals. *)
Definition expected_tools : list string := ["radon"; "bandit"; "pylint"; "pydeps"].

Definition available_count (s : self) : Z :=
  Z.of_nat (length (filter (λ t, t ∈ tools_used s) expected_tools)).

Definition failed_count (s : self) : Z := Z.of_nat (length (tools_failed s)).

(** The expected tools that were not used: what the specification counts. *)
Definition unavailable_count (s : self) : Z :=
  Z.of_nat (length (filter (λ t, t ∉ tools_used s) expected_tools)).

(** [round(x)] to the nearest integer, ties to even. *)
Definition round_half_even (x : Q) : Z :=
  let f := Qfloor x in
  let r := (x - inject_Z f)%Q in
  match (r ?= 1 # 2)%Q with
  | Lt => f
  | Gt => f + 1
  | Eq => if Z.even f then f else f + 1
  end.

(** [round(x, 2)] *)
Definition round2 (x : Q) : Q := (inject_Z (round_half_even (x * 100)) / 100)%Q.

Definition confidence (s : self) : Q :=
  round2 (Qmax (1 # 2)
    (1 - inject_Z (failed_count s) * (1 # 10)
       - inject_Z (4 - available_count s) * (1 # 20)))%Q.

Record meta := Meta {
  meta_tools_used : list string;
  meta_tools_failed : list string;
  coverage : Z * Z;
  meta_confidence : Q
}.

Definition _finalize_meta (s : self) : meta :=
  Meta (tools_used s) (tools_failed s).*1 (files_analyzed s, files_skipped s)
       (confidence s).

(** ** Dimension results *)
Record dimension_result := DimensionResult {
  score : Z;
  metrics : list (string * Z)
}.

(** [i.get('severity') in values] *)
Definition severity_in (values : list string) (i : finding) : bool :=
  match finding_severity i with
  | Some v => bool_decide (v ∈ values)
  | None => false
  end.

(** [sum(1 for i in issues if i.get('severity') in values)] *)
Definition count_severity (values : list string) (issues : list finding) : Z :=
  Z.of_nat (length (filter (λ i, severity_in values i = true) issues)).

(** *** [analyze_maintainability]

    The average is a quotient of integers; the run of [radon mi] only
    fills a metric and is left out. *)
Definition complexity_score (functions : list radon_function) : Z :=
  let total_complexity := foldr Z.add 0 (complexity <$> functions) in
  let func_count := Z.of_nat (length functions) in
  let avg_complexity : Q :=
    if func_count >? 0 then (inject_Z total_complexity / inject_Z func_count)%Q
    else 0%Q in
  if Qle_bool avg_complexity 5 then 100
  else if Qle_bool avg_complexity 10 then 80
  else if Qle_bool avg_complexity 15 then 60
  else 40.

Definition analyze_maintainability (s : self) (p : project)
    : self * dimension_result :=
  match radon_cc p with
  | Completed returncode out =>
      if returncode =? 0 then
        let s1 := _track_tool s "radon" true None in
        match out with
        | Json complexity_data =>
            let functions := flat_map snd complexity_data in
            let high_complexity := filter (λ f, complexity f > 10) functions in
            (Self (tools_used s1) (tools_failed s1)
               (files_analyzed s1 + Z.of_nat (length complexity_data))
               (files_skipped s1),
             DimensionResult (complexity_score functions)
               [("high_complexity_functions", Z.of_nat (length high_complexity))])
        | NotJson error =>
            (_track_tool s1 "radon" false (Some error), DimensionResult 0 [])
        | NoOutput =>
            (_track_tool s1 "radon" false (Some "Expecting value: line 1 column 1 (char 0)"),
             DimensionResult 0 [])
        end
      else
        (_track_tool s "radon" false (Some "non-zero exit code"),
         DimensionResult 0 [])
  | NotInstalled error | Raised error =>
      (_track_tool s "radon" false (Some error), DimensionResult 0 [])
  end.

Section Detectors.
Context (detectors : pattern_detectors).

(** *** [analyze_performance] *)
Definition analyze_performance (p : project) : dimension_result :=
  let python_files := skip_directories non_source (rglob_py p) in
  let parsed := filter (λ f, is_Some (tree f)) python_files in
  let nested_loops := flat_map (_find_nested_loops detectors) parsed in
  let sync_issues := flat_map (_find_sync_operations detectors) parsed in
  let memory_issues := flat_map (_find_memory_risks detectors) parsed in
  let inefficient := flat_map (_find_inefficient_patterns detectors) parsed in
  let all_issues :=
    flat_map (λ f, _find_nested_loops detectors f
                   ++ _find_inefficient_patterns detectors f) parsed
    ++ flat_map (λ f, _find_sync_operations detectors f
                      ++ _find_memory_risks detectors f) parsed in
  let high_severity := count_severity ["high"] all_issues in
  let medium_severity := count_severity ["medium"] all_issues in
  let low_severity := count_severity ["low"] all_issues in
  let penalty := high_severity * 8 + medium_severity * 3 + low_severity * 1 in
  DimensionResult (Z.max 20 (100 - penalty))
    [("nested_loops", Z.of_nat (length nested_loops));
     ("sync_operations", Z.of_nat (length sync_issues));
     ("memory_risks", Z.of_nat (length memory_issues));
     ("inefficient_patterns", Z.of_nat (length inefficient))].

(** *** [analyze_security] *)
Definition analyze_security (s : self) (p : project) : self * dimension_result :=
  let '(s1, bandit_issues) :=
    match bandit p with
    | Completed _ (Json results) => (_track_tool s "bandit" true None, results)
    | Completed _ (NotJson error) =>
        (_track_tool (_track_tool s "bandit" true None) "bandit" false (Some error), [])
    | Completed _ NoOutput => (_track_tool s "bandit" false (Some "no output"), [])
    | NotInstalled _ => (_track_tool s "bandit" false (Some "not installed"), [])
    | Raised error => (_track_tool s "bandit" false (Some error), [])
    end in
  let python_files := skip_directories non_source_or_test (rglob_py p) in
  let readable := filter (λ f, is_Some (lines f)) python_files in
  let static_issues := flat_map (_find_security_patterns detectors) readable in
  let dependency :=
    match safety p with
    | Completed _ (Json (d :: safety_data)) =>
        [Finding "" 0 None "Found vulnerable dependencies"]
    | _ => []
    end in
  let all_issues := (bandit_issues ++ dependency) ++ static_issues in
  let high_severity := count_severity ["HIGH"; "high"] all_issues in
  let medium_severity := count_severity ["MEDIUM"; "medium"] all_issues in
  let low_severity := count_severity ["LOW"; "low"] all_issues in
  let penalty := high_severity * 15 + medium_severity * 5 + low_severity * 1 in
  (s1, DimensionResult (Z.max 20 (100 - penalty))
         [("bandit_issues", Z.of_nat (length bandit_issues));
          ("static_pattern_issues", Z.of_nat (length static_issues))]).

(** *** [analyze_scalability] *)

(** [relative_path.replace('/', '.').replace('.py', '')] *)
Definition module_name (f : source_file) : string :=
  Text.replace ".py" "" (Text.replace "/" "." (relative_path f)).

(** The names appended to [imports] for one node. *)
Definition imports_of_node (n : node) : list string :=
  match n with
  | Import names _ => alias_name <$> names
  | ImportFrom (Some module) _ _ =>
      if bool_decide (module = "") then [] else [module]
  | _ => []
  end.

Definition build_import_graph (python_files : list source_file)
    : CycleDetector.import_graph :=
  foldl (λ import_graph f,
           match tree f with
           | Some t => DeadCode.dict_set import_graph (module_name f)
                         (flat_map imports_of_node (walk t))
           | None => import_graph
           end) [] python_files.

Definition analyze_scalability (p : project) : result dimension_result :=
  let python_files := skip_directories non_source (rglob_py p) in
  match CycleDetector._detect_circular_dependencies
          (build_import_graph python_files) with
  | Ok circular_deps =>
      let god_classes := GodClass._find_god_classes python_files in
      let coupling_issues := TightCoupling._find_tight_coupling python_files in
      let ocp_violations := _find_ocp_violations detectors python_files in
      let dip_violations := _find_dip_violations detectors python_files in
      let circular_penalty := Z.of_nat (length circular_deps) * 10 in
      let god_class_penalty := Z.of_nat (length god_classes) * 5 in
      let coupling_penalty := Z.of_nat (length coupling_issues) * 3 in
      let other_penalty :=
        (Z.of_nat (length ocp_violations) + Z.of_nat (length dip_violations)) * 2 in
      let total_penalty :=
        circular_penalty + god_class_penalty + coupling_penalty + other_penalty in
      Ok (DimensionResult (Z.max 20 (100 - total_penalty))
            [("god_classes", Z.of_nat (length god_classes));
             ("tight_coupling", Z.of_nat (length coupling_issues));
             ("circular_deps", Z.of_nat (length circular_deps));
             ("ocp_violations", Z.of_nat (length ocp_violations));
             ("dip_violations", Z.of_nat (length dip_violations))])
  | ValueError => ValueError
  | OutOfFuel => OutOfFuel
  end.

(** *** [analyze_reusability] *)

(** Lengths of [duplicate_blocks], [dead_code], [extractable_patterns]. *)
Definition reusability_counts (p : project) : Z * Z * Z :=
  let python_files := skip_directories non_source_or_test (rglob_py p) in
  let duplicate_blocks :=
    match pylint p with
    | Completed _ (Json pylint_data) =>
        Z.of_nat (length (filter (λ msg, symbol msg = "duplicate-code") pylint_data))
    | _ =>
        Z.of_nat (length (Duplicates._detect_duplicates_with_hashing python_files))
    end in
  (duplicate_blocks,
   Z.of_nat (length (DeadCode._detect_dead_code python_files)),
   Z.of_nat (length (_detect_extractable_patterns detectors python_files))).

Definition reusability_score (duplicate_blocks dead_code extractable : Z) : Z :=
  let duplication_penalty := duplicate_blocks * 3 in
  let dead_code_penalty := dead_code * 1 in
  let extractable_bonus := Z.min (extractable * 2) 10 in
  let total_penalty := duplication_penalty + dead_code_penalty - extractable_bonus in
  Z.max 20 (100 - total_penalty).

Definition analyze_reusability (p : project) : dimension_result :=
  let '(duplicate_blocks, dead_code, extractable) := reusability_counts p in
  DimensionResult (reusability_score duplicate_blocks dead_code extractable)
    [("duplicate_blocks", duplicate_blocks);
     ("dead_code_items", dead_code);
     ("extractable_patterns", extractable)].

End Detectors.

(** ** Priority actions ([_generate_priority_actions]) *)
Record action := Action {
  dimension : string;
  priority : string;
  action_score : Z;
  action_text : string
}.

(** The body of [for dim, data in self.results['dimensions'].items()]. *)
Definition action_for (entry : string * dimension_result) : list action :=
  let '(dim, data) := entry in
  if score data <? 60 then
    [Action dim "high" (score data)
       ("Address critical " +:+ dim +:+ " issues immediately")]
  else if score data <? 75 then
    [Action dim "medium" (score data) ("Improve " +:+ dim +:+ " in next iteration")]
  else [].

(** [actions.sort(key=lambda x: x['score'])]: a stable sort, here by
    insertion behind the entries whose key is not larger. *)
Fixpoint insert_by_score (a : action) (sorted : list action) : list action :=
  match sorted with
  | [] => [a]
  | b :: rest =>
      if action_score a <? action_score b then a :: b :: rest
      else b :: insert_by_score a rest
  end.

Definition sort_by_score (actions : list action) : list action :=
  foldl (λ sorted a, insert_by_score a sorted) [] actions.

(** Ascending order of the sort key. *)
Definition by_score (a b : action) : Prop := action_score a <= action_score b.

Definition _generate_priority_actions (dimensions : list (string * dimension_result))
    : list action :=
  take 5 (sort_by_score (flat_map action_for dimensions)).

(** ** [analyze] and [main]

    [overall_health] is a rounded floating-point sum and is not part of
    the report kept here. *)
Record report := Report {
  report_meta : meta;
  report_project : string;
  dimensions : list (string * dimension_result);
  priority_actions : list action
}.

Definition valid_dimensions : list string :=
  ["maintainability"; "performance"; "security"; "scalability"; "reusability"].

Definition analyze (detectors : pattern_detectors) (requested : list string)
    (p : project) : result report :=
  let s0 := init in
  let '(s1, dims1) :=
    if bool_decide ("maintainability" ∈ requested) then
      let '(s', r) := analyze_maintainability s0 p in (s', [("maintainability", r)])
    else (s0, []) in
  let dims2 :=
    if bool_decide ("performance" ∈ requested)
    then dims1 ++ [("performance", analyze_performance detectors p)]
    else dims1 in
  let '(s3, dims3) :=
    if bool_decide ("security" ∈ requested) then
      let '(s', r) := analyze_security detectors s1 p in (s', dims2 ++ [("security", r)])
    else (s1, dims2) in
  let scalability :=
    if bool_decide ("scalability" ∈ requested) then
      match analyze_scalability detectors p with
      | Ok r => Ok (dims3 ++ [("scalability", r)])
      | ValueError => ValueError
      | OutOfFuel => OutOfFuel
      end
    else Ok dims3 in
  match scalability with
  | Ok dims4 =>
      let dims5 :=
        if bool_decide ("reusability" ∈ requested)
        then dims4 ++ [("reusability", analyze_reusability detectors p)]
        else dims4 in
      Ok (Report (_finalize_meta s3) (project_path p) dims5
            (_generate_priority_actions dims5))
  | ValueError => ValueError
  | OutOfFuel => OutOfFuel
  end.

(** The command line after [argparse]. *)
Record args := Args {
  arg_dimensions : string;
  arg_all : bool
}.

(** The list [dimensions] of [main]. *)
Definition parse_dimensions (a : args) : list string :=
  if arg_all a || bool_decide (arg_dimensions a = "all") then valid_dimensions
  else Text.strip <$> Text.split_on ","%char (arg_dimensions a).


End Analyzer.

(** * Availability of the analysis tools ([check_dependencies]) *)

Module Dependencies.

(** [REQUIRED_PACKAGES] *)
Definition REQUIRED_PACKAGES : list (string * list string) :=
  [("maintainability", ["radon"; "pylint"; "rope"]);
   ("performance", ["line_profiler"; "memory_profiler"]);
   ("security", ["bandit"; "safety"]);
   ("scalability", ["pydeps"]);
   ("reusability", ["pylint"])].

(** [d.get(key)] on a dictionary kept in insertion order. *)
Fixpoint dict_get {V} (d : list (string * V)) (key : string) : option V :=
  match d with
  | [] => None
  | (k, v) :: rest => if bool_decide (k = key) then Some v else dict_get rest key
  end.

(** [check_package_installed(package)]; [find_spec] tells whether
    [importlib.util.find_spec] finds the module. *)
Definition check_package_installed (find_spec : string → bool) (package : string)
    : bool :=
  find_spec (Text.replace "-" "_" package).

(** [check_dependencies(dimensions)]: the dictionary [available]. *)
Definition check_dependencies (find_spec : string → bool) (dimensions : list string)
    : list (string * bool) :=
  foldl (λ available dim,
           match dict_get REQUIRED_PACKAGES dim with
           | None => available
           | Some packages =>
               DeadCode.dict_set available dim
                 (forallb (check_package_installed find_spec) packages)
           end) [] dimensions.

End Dependencies.

(** * Notions used to state what the detectors guarantee *)

Module Guarantees.
Import Ast.

(** Consecutive modules of the list are joined by followed imports. *)
Fixpoint chain (g : CycleDetector.import_graph) (modules : list string) : Prop :=
  match modules with
  | x :: (y :: _) as rest => CycleDetector.edge g x y ∧ chain g rest
  | _ => True
  end.

(** A chain whose last module imports its first one. *)
Definition closed_chain (g : CycleDetector.import_graph) (modules : list string)
    : Prop :=
  ∃ first final, head modules = Some first ∧ last modules = Some final
                 ∧ chain g modules ∧ CycleDetector.edge g final first.

(** A closed chain that no module enters twice. *)
Definition simple_closed (g : CycleDetector.import_graph) (modules : list string)
    : Prop :=
  closed_chain g modules ∧ NoDup modules.



(** The only tools that the analyzer ever tracks. *)
Definition tracked_tools : list string := ["radon"; "bandit"].

(** What every state of the analyzer object satisfies. *)
Definition well_tracked (s : Analyzer.self) : Prop :=
  NoDup (Analyzer.tools_used s) ∧ NoDup (Analyzer.tools_failed s).*1
  ∧ Analyzer.tools_used s ⊆ tracked_tools
  ∧ (Analyzer.tools_failed s).*1 ⊆ tracked_tools
  ∧ Analyzer.files_skipped s = 0.

(** Files that the detectors working on the syntax tree do not skip. *)
Definition parsed (f : source_file) : Prop := is_Some (tree f).

(** Files that the detectors working on the text do not skip. *)
Definition readable (f : source_file) : Prop := is_Some (lines f).

(** Windows of [block_size] lines in the readable files. *)
Definition window_count (files : list source_file) : nat :=
  sum_list ((λ f, match lines f with
                  | Some ls => length (Duplicates.window_starts ls)
                  | None => 0%nat
                  end) <$> files).

(** The definitions kept by the first loop of the dead-code detector are
    functions and classes whose names do not start with an underscore, each
    stored under the key made of its file and its name. *)
Definition public_definitions (st : DeadCode.state) : Prop :=
  ∀ entry, entry ∈ DeadCode.all_definitions st →
    Text.startswith_underscore (DeadCode.def_name entry.2) = false
    ∧ (DeadCode.def_type entry.2 = "function" ∨ DeadCode.def_type entry.2 = "class")
    ∧ entry.1 = DeadCode.def_file entry.2 +:+ ":" +:+ DeadCode.def_name entry.2.

(** The key under which the dead-code detector stores a definition. *)
Definition dead_key (d : DeadCode.dead_item) : string :=
  DeadCode.file d +:+ ":" +:+ DeadCode.name d.

(** The entries of a dead-code report that are not unused imports. *)
Definition reported_definitions (report : list DeadCode.dead_item)
    : list DeadCode.dead_item :=
  filter (λ d, DeadCode.type d ≠ "unused_import") report.

(** A string without white space and without comma. *)
Fixpoint plain (name : string) : bool :=
  match name with
  | EmptyString => true
  | String c rest =>
      negb (Text.isspace c) && negb (bool_decide (c = ","%char)) && plain rest
  end.

(** A string of white space only. *)
Fixpoint blank (pad : string) : bool :=
  match pad with
  | EmptyString => true
  | String c rest => Text.isspace c && blank rest
  end.

(** Sum of the complexities and number of the functions of a radon report. *)
Definition total_complexity (functions : list Analyzer.radon_function) : Z :=
  foldr Z.add 0 (Analyzer.complexity <$> functions).

End Guarantees.

(** * Concrete inputs used in examples *)

Module Samples.
Import Ast.

(** [def m(self): pass] at line [lineno] *)
Definition method (lineno : Z) : node := FunctionDef "m" lineno [Other []].

(** A class with [n] methods on the lines after its header. *)
Definition class_with_methods (n : nat) : node :=
  ClassDef "Big" 1 (Some (Z.of_nat n + 1)) []
    (imap (λ i _, method (Z.of_nat i + 2)) (replicate n ())) [].

(** [self.attr = Ctor()] *)
Definition assign_new (attr ctor : string) : node :=
  Other [Attribute (Name "self") attr; Call (Name ctor) []].

Definition init_with (statements : list node) : node :=
  FunctionDef "__init__" 2 (Other [] :: statements).

(** A class whose initializer builds six objects of the same class. *)
Definition six_of_one_body : list node :=
  [init_with [assign_new "a" "Worker"; assign_new "b" "Worker";
              assign_new "c" "Worker"; assign_new "d" "Worker";
              assign_new "e" "Worker"; assign_new "f" "Worker"]].

Definition six_of_one : node := ClassDef "Pool" 1 (Some 8) [] six_of_one_body [].

(** A class whose initializer builds six objects of six classes. *)
Definition six_of_six_body : list node :=
  [init_with [assign_new "a" "Db"; assign_new "b" "Cache";
              assign_new "c" "Queue"; assign_new "d" "Mailer";
              assign_new "e" "Logger"; assign_new "f" "Clock"]].

Definition six_of_six : node := ClassDef "App" 1 (Some 8) [] six_of_six_body [].

Definition module_of (relative : string) (body : list node) : source_file :=
  SourceFile relative relative None (Some (Other body)).

(** [helper.go()] *)
Definition caller_file : source_file :=
  module_of "a.py" [Other [Call (Attribute (Name "helper") "go") []]].

(** [import helper] and [def go(): pass] *)
Definition library_file : source_file :=
  module_of "b.py" [Import [Alias "helper" None] 1; FunctionDef "go" 2 [Other []]].

(** [import os], [def main(): pass] and [def spare(): pass] *)
Definition script_file : source_file :=
  module_of "c.py" [Import [Alias "os" None] 1; FunctionDef "main" 2 [Other []];
                    FunctionDef "spare" 3 [Other []]].

Definition text_file (relative : string) (content : list string) : source_file :=
  SourceFile relative relative (Some content) None.

(** A line with its terminator. *)
Definition ln (text : string) : string := text +:+ String "010"%char EmptyString.

(** Six short lines: 55 characters once normalized, at most 46 in any
    window of five. *)
Definition short_block : list string :=
  [ln "import os"; ln "import re"; ln "x = f(1)"; ln "y = g(2)"; ln "z = h(3)";
   ln "print(x)"].

(** Six longer lines. *)
Definition long_block : list string :=
  [ln "def total(values):"; ln "    result = 0"; ln "    for value in values:";
   ln "        result += value"; ln "    return result";
   ln "print(total([1, 2, 3]))"].

(** Three lines shared by [collide_a] and [collide_b]. *)
Definition shared_three : list string :=
  [ln "def report(values):"; ln "    for value in values:";
   ln "        print(value)"].

(** Two files whose first two lines differ and whose last three lines are
    [shared_three]; the replaced characters leave the hash unchanged. *)
Definition collide_a : list string :=
  [ln "first = 'b!'"; ln "second = 'b!'"] ++ shared_three.

Definition collide_b : list string :=
  [ln "first = 'aB'"; ln "second = 'aB'"] ++ shared_three.

(** Detectors that find nothing. *)
Definition no_patterns : Analyzer.pattern_detectors :=
  Analyzer.PatternDetectors (λ _, []) (λ _, []) (λ _, []) (λ _, []) (λ _, [])
    (λ _, []) (λ _, []) (λ _, []).

(** Detectors of which only the extractable-pattern one reports, once. *)
Definition one_extractable : Analyzer.pattern_detectors :=
  Analyzer.PatternDetectors (λ _, []) (λ _, []) (λ _, []) (λ _, []) (λ _, [])
    (λ _, []) (λ _, [])
    (λ _, [Analyzer.Finding "" 0 None "DateTime formatting - consider date utility"]).

Definition not_installed {A} (tool : string) : Analyzer.tool_run A :=
  Analyzer.NotInstalled ("[Errno 2] No such file or directory: " +:+ tool).

(** An existing project directory without Python files, on a machine
    without any of the external tools. *)
Definition empty_project : Analyzer.project :=
  Analyzer.Project "proj" true [] (not_installed "radon") (not_installed "bandit")
    (not_installed "safety") (not_installed "pylint").


(** A project of one file holding a class of 21 methods; [radon] answers
    with one function of complexity 12. *)
Definition small_project : Analyzer.project :=
  Analyzer.Project "proj" true
    [SourceFile "proj/big.py" "big.py" (Some []) (Some (Other [class_with_methods 21]))]
    (Analyzer.Completed 0
       (Analyzer.Json [("proj/big.py", [Analyzer.RadonFunction "m" 12 2])]))
    (not_installed "bandit") (not_installed "safety") (not_installed "pylint").

(** [A.py]: [import B]; [B.py]: [import A]; [C.py]: [import A]. *)
Definition cyclic_project : Analyzer.project :=
  Analyzer.Project "proj" true
    [SourceFile "proj/A.py" "A.py" (Some [ln "import B"])
       (Some (Other [Import [Alias "B" None] 1]));
     SourceFile "proj/B.py" "B.py" (Some [ln "import A"])
       (Some (Other [Import [Alias "A" None] 1]));
     SourceFile "proj/C.py" "C.py" (Some [ln "import A"])
       (Some (Other [Import [Alias "A" None] 1]))]
    (not_installed "radon") (not_installed "bandit") (not_installed "safety")
    (not_installed "pylint").

End Samples.

(** * Facts about lists *)

Lemma elem_of_flat_map {A B} (f : A → list B) (l : list A) (y : B) :
  y ∈ flat_map f l ↔ ∃ x, x ∈ l ∧ y ∈ f x.
Proof.
  induction l as [|x l IH]; simpl.
  - split; [by intros ?%elem_of_nil|]. by intros (? & ?%elem_of_nil & _).
  - rewrite elem_of_app, IH. split.
    + intros [?|(x' & ? & ?)]; [exists x|exists x']; split; try done;
        [apply list_elem_of_here|by apply list_elem_of_further].
    + intros (x' & [->|?]%elem_of_cons & ?); [by left|right; eauto].
Qed.

(** * The walk visits every node *)

Section WalkFacts.
Import Ast.

Lemma count_nodes_app l1 l2 :
  count_nodes (l1 ++ l2) = (count_nodes l1 + count_nodes l2)%nat.
Proof. induction l1 as [|n l1 IH]; simpl; [done|]. rewrite IH. lia. Qed.

Lemma node_count_children n : node_count n = S (count_nodes (iter_child_nodes n)).
Proof.
  assert (∀ l, (fix count_all (l : list node) : nat :=
                  match l with
                  | [] => 0%nat
                  | x :: rest => (node_count x + count_all rest)%nat
                  end) l = count_nodes l) as Hfix.
  { induction l as [|x l IH]; [done|]. simpl. by rewrite IH. }
  assert (∀ x l, count_nodes (x :: l) = (node_count x + count_nodes l)%nat)
    as Hcons by done.
  assert (count_nodes [] = 0%nat) as Hnil by done.
  destruct n as [? ? children|? ? children|? ? ? bases body decorators| | |
                 |value ?|fn arguments|children]; simpl.
  - by rewrite (Hfix children).
  - by rewrite (Hfix children).
  - rewrite (Hfix bases), (Hfix body), (Hfix decorators), !count_nodes_app. lia.
  - done.
  - done.
  - done.
  - lia.
  - by rewrite (Hfix arguments).
  - by rewrite (Hfix children).
Qed.

(** With one unit of fuel per node the queue is emptied: the walk yields as
    many nodes as the trees hold. *)
Lemma walk_queue_length fuel : ∀ todo,
  (count_nodes todo ≤ fuel)%nat → length (walk_queue fuel todo) = count_nodes todo.
Proof.
  induction fuel as [|fuel IH]; intros todo Hfuel.
  - destruct todo as [|n rest]; [done|]. simpl in Hfuel.
    pose proof (node_count_children n). lia.
  - destruct todo as [|n rest]; [done|]. simpl in Hfuel.
    pose proof (node_count_children n) as Hn.
    cbn [walk_queue length count_nodes foldr].
    rewrite IH; rewrite count_nodes_app; fold (count_nodes rest); lia.
Qed.

Lemma walk_length n : length (walk n) = node_count n.
Proof. unfold walk. rewrite walk_queue_length; simpl; lia. Qed.

End WalkFacts.

(** * Properties of the cycle detector *)

Section CycleDetectorFacts.
Import CycleDetector.

Implicit Types (g : import_graph) (st : dfs_state) (m : string).












(** ** One step of [dfs] and of the loops, by the branch taken *)











End CycleDetectorFacts.



(** C10: the graph A→B, B→A, C→A with the keys in this order.  The cycle
    A, B is returned from the first root with both modules left on the
    recursion stack; from the root C the search reaches A, finds it on the
    stack but not in the path, and [path.index] raises.  A project of three
    files has this graph, and its scalability analysis raises as well. *)
Theorem cycle_detector_raises_after_cycle :
  CycleDetector._detect_circular_dependencies
    [("A", ["B"]); ("B", ["A"]); ("C", ["A"])] = ValueError
  ∧ Analyzer.build_import_graph (Analyzer.py_files Samples.cyclic_project)
    = [("A", ["B"]); ("B", ["A"]); ("C", ["A"])]
  ∧ Analyzer.analyze Samples.no_patterns ["scalability"] Samples.cyclic_project
    = ValueError.
Proof. repeat split; vm_compute; reflexivity. Qed.

(** * Properties of the class detectors *)

Section ClassDetectorFacts.
Import Ast.



Lemma length_omap_filter {A B} (f : A → option B) (l : list A) :
  length (omap f l) = length (filter (λ x, is_Some (f x)) l).
Proof.
  induction l as [|x l IH]; [done|].
  rewrite filter_cons.
  change (omap f (x :: l))
    with (match f x with Some y => y :: omap f l | None => omap f l end).
  destruct (decide (is_Some (f x))) as [[b Hb]|Hno].
  - rewrite Hb. simpl. by rewrite IH.
  - destruct (f x); [exfalso; eauto|done].
Qed.

Lemma filter_ext_length {A} (P Q : A → Prop) `{∀ x, Decision (P x)}
    `{∀ x, Decision (Q x)} (l : list A) :
  (∀ x, P x ↔ Q x) → length (filter P l) = length (filter Q l).
Proof.
  intros HPQ. induction l as [|x l IH]; [done|].
  rewrite !filter_cons.
  destruct (decide (P x)), (decide (Q x)); simpl; try (by rewrite IH);
    exfalso; naive_solver.
Qed.

Lemma length_remove_dups_le (l : list string) :
  (length (remove_dups l) ≤ length l)%nat.
Proof.
  apply submseteq_length, NoDup_submseteq; [apply NoDup_remove_dups|].
  intros x. by rewrite elem_of_remove_dups.
Qed.

(** Distinct constructor names are never more than calls. *)
Lemma distinct_le_count body :
  TightCoupling.distinct_instantiations body
  <= TightCoupling.count_instantiations body.
Proof.
  unfold TightCoupling.distinct_instantiations, TightCoupling.count_instantiations,
    TightCoupling.instantiated_names.
  apply inj_le. etrans; [apply length_remove_dups_le|].
  rewrite length_omap_filter.
  apply Nat.eq_le_incl, filter_ext_length.
  intros child. unfold TightCoupling.is_instantiation.
  destruct child as [| | | | | | |fn ?|];
    try (simpl; split; [by intros [??]|done]).
  destruct fn; try (simpl; split; [by intros [??]|done]).
  destruct (Text.first_isupper id); split; try done; eauto.
Qed.

End ClassDetectorFacts.



(** C7 (as the code has it): a class is reported when and only when its
    initializers hold more than 5 calls of capitalized names, every call
    counted; more than 5 distinct names are therefore always reported. *)
Theorem tight_coupling_counts_calls (file_path class_name : string) (lineno : Z)
    (end_lineno : option Z) (bases body decorator_list : list Ast.node) :
  let c := Ast.ClassDef class_name lineno end_lineno bases body decorator_list in
  (length (TightCoupling.check_node file_path c) ≤ 1)%nat
  ∧ (TightCoupling.check_node file_path c ≠ []
     ↔ TightCoupling.count_instantiations body > 5)
  ∧ (TightCoupling.distinct_instantiations body > 5 →
     TightCoupling.check_node file_path c ≠ []).
Proof.
  intros c. pose proof (distinct_le_count body) as Hle.
  unfold c. simpl.
  destruct (_ >? 5) eqn:Hcount; simpl.
  - split; [lia|]. split; [|done]. split; [lia|done].
  - split; [lia|]. split; [|lia]. split; [done|lia].
Qed.

Lemma tight_coupling_counts_calls_witness :
  TightCoupling.distinct_instantiations Samples.six_of_six_body > 5
  ∧ TightCoupling.check_node "app.py" Samples.six_of_six ≠ [].
Proof.
  split; [vm_compute; reflexivity|].
  apply (tight_coupling_counts_calls "app.py" "App" 1 (Some 8) []
           Samples.six_of_six_body []).
  vm_compute. reflexivity.
Defined.

(** The claim of C7 fails on a class that instantiates one class six times:
    it is reported although it names a single constructor. *)
Lemma tight_coupling_repeated_constructor :
  TightCoupling.check_node "pool.py" Samples.six_of_one ≠ []
  ∧ TightCoupling.distinct_instantiations Samples.six_of_one_body = 1
  ∧ ¬ (TightCoupling.check_node "pool.py" Samples.six_of_one ≠ []
       ↔ TightCoupling.distinct_instantiations Samples.six_of_one_body > 5).
Proof.
  assert (TightCoupling.check_node "pool.py" Samples.six_of_one ≠ []) as Hflag
    by (vm_compute; congruence).
  split; [done|]. split; [vm_compute; reflexivity|].
  intros H. apply H in Hflag. vm_compute in Hflag. congruence.
Qed.

(** * Properties of the dead-code detector *)

Section DeadCodeFacts.
Import Ast DeadCode.

Lemma collect_node_usages path st n :
  all_usages (collect_node path st n)
  = all_usages (collect_node path (State [] ∅ []) n) ∪ all_usages st.
Proof.
  destruct n as [name ? ?| |name ? ? ? ? ?| | |?|? ?|fn ?|]; simpl;
    try (destruct (Text.startswith_underscore name)); simpl; try set_solver.
  destruct fn; simpl; set_solver.
Qed.

Lemma collect_node_dead_code path st n :
  dead_code (collect_node path st n) = dead_code st.
Proof.
  destruct n as [name ? ?| |name ? ? ? ? ?| | |?|? ?|fn ?|]; simpl;
    try (destruct (Text.startswith_underscore name)); simpl; try done.
  by destruct fn.
Qed.

Lemma collect_nodes_usages path nodes : ∀ st,
  all_usages (foldl (collect_node path) st nodes)
  = all_usages (foldl (collect_node path) (State [] ∅ []) nodes) ∪ all_usages st.
Proof.
  induction nodes as [|n nodes IH]; intros st; simpl; [set_solver|].
  rewrite (IH (collect_node path st n)), (IH (collect_node path (State [] ∅ []) n)).
  rewrite (collect_node_usages path st n). set_solver.
Qed.

Lemma collect_nodes_dead_code path nodes : ∀ st,
  dead_code (foldl (collect_node path) st nodes) = dead_code st.
Proof.
  induction nodes as [|n nodes IH]; intros st; simpl; [done|].
  by rewrite IH, collect_node_dead_code.
Qed.

(** One file adds its own usages to those already collected. *)
Lemma process_file_usages st f :
  all_usages (process_file st f) = usages_of_file f ∪ all_usages st.
Proof.
  unfold usages_of_file, process_file. destruct (tree f) as [t|]; simpl.
  - apply collect_nodes_usages.
  - set_solver.
Qed.

Lemma process_file_dead_code st f :
  dead_code (process_file st f)
  = dead_code st ++ unused_imports_of (usages_of_file f ∪ all_usages st) f.
Proof.
  rewrite <- process_file_usages. unfold process_file, unused_imports_of.
  destruct (tree f) as [t|]; simpl.
  - by rewrite collect_nodes_dead_code.
  - by rewrite app_nil_r.
Qed.

Lemma scan_snoc files f : scan (files ++ [f]) = process_file (scan files) f.
Proof. unfold scan. by rewrite foldl_app. Qed.

Lemma scan_usages files : all_usages (scan files) = usages_of_files files.
Proof.
  induction files as [|f files IH] using rev_ind.
  - done.
  - rewrite scan_snoc, process_file_usages, IH. unfold usages_of_files.
    rewrite fmap_app, union_list_app_L. simpl. set_solver.
Qed.

Lemma check_definition_inv usages entry d :
  d ∈ check_definition usages entry →
  d = unused_definition entry.2 ∧ (def_name entry.2 ∉ usages)
  ∧ (def_name entry.2 ∉ entry_points).
Proof.
  unfold check_definition.
  destruct (bool_decide (def_name entry.2 ∉ usages)) eqn:H1; simpl;
    [|by intros ?%elem_of_nil].
  destruct (bool_decide (def_name entry.2 ∉ entry_points)) eqn:H2; simpl;
    [|by intros ?%elem_of_nil].
  apply bool_decide_eq_true in H1, H2.
  intros ->%list_elem_of_singleton. done.
Qed.

Lemma check_import_type path usages n d :
  d ∈ check_import path usages n → type d = "unused_import".
Proof.
  destruct n; simpl; try (by intros ?%elem_of_nil).
  - intros (a & _ & Hd)%elem_of_flat_map.
    destruct (_ && _); [|by apply elem_of_nil in Hd].
    by apply list_elem_of_singleton in Hd as ->.
  - intros (a & _ & Hd)%elem_of_flat_map.
    destruct (_ && _); [|by apply elem_of_nil in Hd].
    by apply list_elem_of_singleton in Hd as ->.
Qed.

Lemma scan_dead_code_type files d :
  d ∈ dead_code (scan files) → type d = "unused_import".
Proof.
  induction files as [|f files IH] using rev_ind.
  - by intros ?%elem_of_nil.
  - rewrite scan_snoc, process_file_dead_code.
    intros [?|Hd]%elem_of_app; [by apply IH|].
    unfold unused_imports_of in Hd. destruct (tree f); [|by apply elem_of_nil in Hd].
    apply elem_of_flat_map in Hd as (nd & _ & Hd). by eapply check_import_type.
Qed.

End DeadCodeFacts.

(** C2 (as the code has it): the usage set is shared by all files of the run.
    The imports of a file are checked against the usages of that file and of
    the files processed before it; the definitions are checked at the end
    against the usages of all files; an entry that is not an unused import
    never carries a name of the entry-point list, and its name is used in no
    file of the run. *)
Theorem dead_code_shared_usages (before : list Ast.source_file)
    (f : Ast.source_file) (files : list Ast.source_file) (d : DeadCode.dead_item) :
  DeadCode.dead_code (DeadCode.scan (before ++ [f]))
  = DeadCode.dead_code (DeadCode.scan before)
    ++ DeadCode.unused_imports_of (DeadCode.usages_of_files (before ++ [f])) f
  ∧ DeadCode.collect_dead_code files
    = DeadCode.dead_code (DeadCode.scan files)
      ++ flat_map (DeadCode.check_definition (DeadCode.usages_of_files files))
           (DeadCode.all_definitions (DeadCode.scan files))
  ∧ DeadCode._detect_dead_code files = take 100 (DeadCode.collect_dead_code files)
  ∧ (d ∈ DeadCode._detect_dead_code files →
     DeadCode.type d ≠ "unused_import" →
     (DeadCode.name d ∉ DeadCode.entry_points)
     ∧ (DeadCode.name d ∉ DeadCode.usages_of_files files)).
Proof.
  split; [|split; [|split]].
  - rewrite scan_snoc, process_file_dead_code, scan_usages.
    f_equal. f_equal. unfold DeadCode.usages_of_files.
    rewrite fmap_app, union_list_app_L. simpl. set_solver.
  - unfold DeadCode.collect_dead_code. by rewrite scan_usages.
  - done.
  - intros Hd Htype. apply elem_of_take in Hd as (i & Hd & _).
    apply list_elem_of_lookup_2 in Hd.
    unfold DeadCode.collect_dead_code in Hd. rewrite scan_usages in Hd.
    apply elem_of_app in Hd as [Hd|Hd].
    + by apply scan_dead_code_type in Hd.
    + apply elem_of_flat_map in Hd as (entry & _ & Hd).
      apply check_definition_inv in Hd as (-> & Hused & Hentry). done.
Qed.

Lemma dead_code_shared_usages_witness :
  DeadCode._detect_dead_code [Samples.script_file]
  = [DeadCode.unused_import "c.py" 1 "os" (Ast.Alias "os" None);
     DeadCode.unused_definition (DeadCode.Definition_ "c.py" "spare" 3 "function")]
  ∧ ("spare" ∉ DeadCode.entry_points)
  ∧ ("spare" ∉ DeadCode.usages_of_files [Samples.script_file]).
Proof.
  split; [vm_compute; reflexivity|].
  apply (dead_code_shared_usages [] Samples.script_file [Samples.script_file]
           (DeadCode.unused_definition
              (DeadCode.Definition_ "c.py" "spare" 3 "function"))).
  - apply list_elem_of_further, list_elem_of_here.
  - vm_compute. discriminate.
Defined.

(** The claim of C2 fails: the file [b.py] alone has an unused import and an
    unused function, and neither is reported when [a.py], which uses both
    names, is processed before it. *)
Lemma dead_code_suppressed_by_other_file :
  DeadCode._detect_dead_code [Samples.library_file]
  = [DeadCode.unused_import "b.py" 1 "helper" (Ast.Alias "helper" None);
     DeadCode.unused_definition (DeadCode.Definition_ "b.py" "go" 2 "function")]
  ∧ DeadCode.usages_of_file Samples.library_file = ∅
  ∧ DeadCode._detect_dead_code [Samples.caller_file; Samples.library_file] = [].
Proof.
  split; [vm_compute; reflexivity|].
  split; [vm_compute; reflexivity|]. vm_compute. reflexivity.
Qed.

(** * Properties of the duplicate-block detector *)

Section DuplicatesFacts.
Import Ast Duplicates.

Lemma window_starts_short ls : (length ls < 5)%nat → window_starts ls = [].
Proof.
  intros Hlen. unfold window_starts, block_size.
  replace (length ls + 1 - 5)%nat with 0%nat by lia. done.
Qed.

Lemma elem_of_window_starts ls i :
  i ∈ window_starts ls ↔ (i + 5 ≤ length ls)%nat.
Proof.
  unfold window_starts, block_size. rewrite elem_of_seq. lia.
Qed.

(** Blocks are never taken out of a bucket, pairs never out of the list. *)
Lemma process_window_stored path ls st i h b :
  stored st h b → stored (process_window path ls st i) h b.
Proof.
  intros (bucket & Hb & Hin). unfold process_window.
  destruct (_ <? 50); [by exists bucket|].
  set (h' := Text.simple_hash _).
  destruct (block_hashes st !! h') as [bucket'|] eqn:Hh'; unfold stored; simpl.
  - destruct (decide (h' = h)) as [->|Hne].
    + rewrite lookup_insert_eq. eexists; split; [done|].
      rewrite Hb in Hh'. injection Hh' as <-. apply elem_of_app. by left.
    + rewrite lookup_insert_ne by done. eauto.
  - destruct (decide (h' = h)) as [->|Hne]; [congruence|].
    rewrite lookup_insert_ne by done. eauto.
Qed.

Lemma process_window_duplicates path ls st i d :
  d ∈ duplicates st → d ∈ duplicates (process_window path ls st i).
Proof.
  intros Hd. unfold process_window.
  destruct (_ <? 50); [done|].
  destruct (block_hashes st !! _); simpl; [|done].
  apply elem_of_app. by left.
Qed.

Lemma windows_stored path ls starts : ∀ st h b,
  stored st h b → stored (foldl (process_window path ls) st starts) h b.
Proof.
  induction starts as [|i starts IH]; intros st h b Hb; simpl; [done|].
  by apply IH, process_window_stored.
Qed.

Lemma windows_duplicates path ls starts : ∀ st d,
  d ∈ duplicates st → d ∈ duplicates (foldl (process_window path ls) st starts).
Proof.
  induction starts as [|i starts IH]; intros st d Hd; simpl; [done|].
  by apply IH, process_window_duplicates.
Qed.

(** A window of at least 50 normalized characters is stored under its hash. *)
Lemma process_window_stores path ls st i :
  50 <= Text.len (normalized_block ls i) →
  stored (process_window path ls st i)
    (Text.simple_hash (normalized_block ls i)) (Block path (Z.of_nat i + 1)).
Proof.
  intros Hlen. unfold process_window.
  destruct (_ <? 50) eqn:Hshort; [apply Z.ltb_lt in Hshort; lia|].
  destruct (block_hashes st !! _) as [bucket|]; unfold stored; simpl;
    rewrite lookup_insert_eq; eexists; split; try done.
  - apply elem_of_app. right. apply list_elem_of_here.
  - apply list_elem_of_here.
Qed.

(** ... and reported when a block far enough is already stored there. *)
Lemma process_window_reports path ls st i b :
  50 <= Text.len (normalized_block ls i) →
  stored st (Text.simple_hash (normalized_block ls i)) b →
  far_enough path i b →
  ∃ d, d ∈ duplicates (process_window path ls st i)
       ∧ file d = path ∧ line d = Z.of_nat i + 1.
Proof.
  intros Hlen (bucket & Hbucket & Hb) Hfar. unfold process_window.
  destruct (_ <? 50) eqn:Hshort; [apply Z.ltb_lt in Hshort; lia|].
  rewrite Hbucket.
  destruct (list_find (far_enough path i) bucket) as [[k existing]|] eqn:Hfind.
  - eexists. split; [simpl; apply elem_of_app; right; apply list_elem_of_here|].
    done.
  - apply list_find_None in Hfind. rewrite Forall_forall in Hfind.
    by destruct (Hfind b Hb).
Qed.

Lemma windows_split (starts : list nat) i :
  i ∈ starts → ∃ before after, starts = before ++ i :: after.
Proof. apply list_elem_of_split. Qed.

Lemma process_window_backed known path ls st i :
  known path (Z.of_nat i + 1) (normalized_block ls i) →
  backed known st → backed known (process_window path ls st i).
Proof.
  intros Hknown [Hbuckets Hdups]. unfold process_window.
  destruct (_ <? 50) eqn:Hshort; [done|]. apply Z.ltb_ge in Hshort.
  set (text := normalized_block ls i) in *. set (h := Text.simple_hash text).
  assert (∀ b, b = Block path (Z.of_nat i + 1) →
            ∃ t, known (block_file b) (block_line b) t
                 ∧ 50 <= Text.len t ∧ Text.simple_hash t = h) as Hhere.
  { intros b ->. exists text. done. }
  destruct (block_hashes st !! h) as [bucket|] eqn:Hbucket; split; simpl.
  - intros h' bucket' b. destruct (decide (h = h')) as [<-|Hne].
    + rewrite lookup_insert_eq. intros [= <-] [Hb|Hb%list_elem_of_singleton]%elem_of_app.
      * by eapply Hbuckets.
      * by apply Hhere.
    + rewrite lookup_insert_ne by done. apply Hbuckets.
  - intros d [Hd|Hd]%elem_of_app; [by apply Hdups|].
    destruct (list_find (far_enough path i) bucket) as [[k existing]|] eqn:Hfind;
      [|by apply elem_of_nil in Hd].
    apply list_elem_of_singleton in Hd as ->. simpl.
    apply list_find_Some in Hfind as (Hk & Hfar & _).
    apply list_elem_of_lookup_2 in Hk.
    destruct (Hbuckets h bucket existing Hbucket Hk) as (text2 & ? & ? & ?).
    exists text, text2. repeat split; done.
  - intros h' bucket' b. destruct (decide (h = h')) as [<-|Hne].
    + rewrite lookup_insert_eq. intros [= <-] Hb%list_elem_of_singleton.
      by apply Hhere.
    + rewrite lookup_insert_ne by done. apply Hbuckets.
  - done.
Qed.

Lemma windows_backed known path ls starts : ∀ st,
  (∀ i, i ∈ starts → known path (Z.of_nat i + 1) (normalized_block ls i)) →
  backed known st → backed known (foldl (process_window path ls) st starts).
Proof.
  induction starts as [|i starts IH]; intros st Hknown Hst; simpl; [done|].
  apply IH; [intros; apply Hknown; by apply list_elem_of_further|].
  apply process_window_backed; [|done]. apply Hknown, list_elem_of_here.
Qed.

Lemma files_backed files done : ∀ st,
  done ⊆ files → backed (window_of files) st →
  backed (window_of files) (foldl process_file st done).
Proof.
  induction done as [|f done IH]; intros st Hsub Hst; simpl; [done|].
  apply IH; [set_solver|]. unfold process_file.
  destruct (lines f) as [ls|] eqn:Hls; [|done].
  apply windows_backed; [|done].
  intros i Hi. exists f, ls, i. repeat split; try done. set_solver.
Qed.

Lemma collect_duplicates_justified files d :
  d ∈ collect_duplicates files → justified files d.
Proof.
  intros Hd.
  destruct (files_backed files files (State [] ∅)) as [_ Hdups]; [done| |].
  - split; [intros h bucket b Hb; simpl in Hb; by rewrite lookup_empty in Hb|].
    by intros ? ?%elem_of_nil.
  - by apply Hdups.
Qed.

Lemma short_files_no_duplicates files :
  (∀ f ls, f ∈ files → lines f = Some ls → (length ls < 5)%nat) →
  collect_duplicates files = [].
Proof.
  intros Hshort. unfold collect_duplicates.
  assert (∀ st, foldl process_file st files = st) as ->; [|done].
  induction files as [|f files IH]; intros st; simpl; [done|].
  rewrite <- (IH ltac:(intros; eapply Hshort; [by apply list_elem_of_further|done]) st) at 2.
  f_equal. unfold process_file. destruct (lines f) as [ls|] eqn:Hls; [|done].
  rewrite window_starts_short; [done|]. eapply Hshort; [apply list_elem_of_here|done].
Qed.

(** Two files that share a window of at least 50 normalized characters. *)
Lemma shared_window_reported f1 f2 ls1 ls2 i1 i2 :
  relative_path f1 ≠ relative_path f2 →
  lines f1 = Some ls1 → lines f2 = Some ls2 →
  i1 ∈ window_starts ls1 → i2 ∈ window_starts ls2 →
  normalized_block ls1 i1 = normalized_block ls2 i2 →
  50 <= Text.len (normalized_block ls1 i1) →
  ∃ d, d ∈ collect_duplicates [f1; f2]
       ∧ file d = relative_path f2 ∧ line d = Z.of_nat i2 + 1.
Proof.
  intros Hpath Hls1 Hls2 Hi1 Hi2 Hsame Hlen.
  unfold collect_duplicates. simpl. unfold process_file at 2. rewrite Hls1.
  set (st1 := foldl _ (State [] ∅) (window_starts ls1)).
  assert (stored st1 (Text.simple_hash (normalized_block ls1 i1))
            (Block (relative_path f1) (Z.of_nat i1 + 1))) as Hstored.
  { unfold st1. destruct (windows_split _ _ Hi1) as (before & after & ->).
    rewrite foldl_app. simpl. by apply windows_stored, process_window_stores. }
  clearbody st1. unfold process_file. rewrite Hls2.
  destruct (windows_split _ _ Hi2) as (before & after & ->).
  rewrite foldl_app. simpl.
  set (st2 := foldl _ st1 before).
  destruct (process_window_reports (relative_path f2) ls2 st2 i2
              (Block (relative_path f1) (Z.of_nat i1 + 1)))
    as (d & Hd & Hfile & Hline).
  - by rewrite <- Hsame.
  - rewrite <- Hsame. by apply windows_stored.
  - by left.
  - exists d. split; [|done]. by apply windows_duplicates.
Qed.

Lemma normalized_block_shared ls1 ls2 i1 i2 :
  take 6 (drop i1 ls1) = take 6 (drop i2 ls2) →
  normalized_block ls1 i1 = normalized_block ls2 i2.
Proof.
  intros Hsix. unfold normalized_block, block_size.
  change 5%nat with (5 `min` 6)%nat.
  by rewrite <- !take_take, Hsix.
Qed.

End DuplicatesFacts.

(** C4 (as the code has it): every reported pair joins two windows of five
    lines with at least 50 normalized characters each and the same hash, in
    different files or more than five lines apart; two files that hold the
    same six lines, the first five of which have at least 50 normalized
    characters, yield a pair; files of fewer than five lines yield none. *)
Theorem hash_duplicates_windows (files : list Ast.source_file)
    (d : Duplicates.duplicate) (f1 f2 : Ast.source_file)
    (ls1 ls2 : list string) (i1 i2 : nat) (short : list Ast.source_file) :
  (d ∈ Duplicates._detect_duplicates_with_hashing files →
   Duplicates.justified files d)
  ∧ (Ast.relative_path f1 ≠ Ast.relative_path f2 →
     Ast.lines f1 = Some ls1 → Ast.lines f2 = Some ls2 →
     (i1 + 6 ≤ length ls1)%nat → (i2 + 6 ≤ length ls2)%nat →
     take 6 (drop i1 ls1) = take 6 (drop i2 ls2) →
     50 <= Text.len (Duplicates.normalized_block ls1 i1) →
     Duplicates._detect_duplicates_with_hashing [f1; f2] ≠ []
     ∧ ∃ d', d' ∈ Duplicates.collect_duplicates [f1; f2]
             ∧ Duplicates.file d' = Ast.relative_path f2
             ∧ Duplicates.line d' = Z.of_nat i2 + 1)
  ∧ ((∀ f ls, f ∈ short → Ast.lines f = Some ls → (length ls < 5)%nat) →
     Duplicates._detect_duplicates_with_hashing short = []).
Proof.
  split; [|split].
  - intros Hd. apply collect_duplicates_justified.
    apply elem_of_take in Hd as (i & Hd & _). by eapply list_elem_of_lookup_2.
  - intros Hpath Hls1 Hls2 Hi1 Hi2 Hsix Hlen.
    destruct (shared_window_reported f1 f2 ls1 ls2 i1 i2) as (d' & Hd' & ?);
      try done.
    + apply elem_of_window_starts. lia.
    + apply elem_of_window_starts. lia.
    + by apply normalized_block_shared.
    + split; [|eauto]. unfold Duplicates._detect_duplicates_with_hashing.
      destruct (Duplicates.collect_duplicates [f1; f2]); [|done].
      by apply elem_of_nil in Hd'.
  - intros Hshort. unfold Duplicates._detect_duplicates_with_hashing.
    by rewrite short_files_no_duplicates.
Qed.

Lemma hash_duplicates_windows_witness :
  let a := Samples.text_file "a.py" Samples.long_block in
  let b := Samples.text_file "b.py" (Samples.ln "import sys" :: Samples.long_block) in
  Duplicates.justified [a; b]
    (Duplicates.Duplicate "b.py" 2 "a.py" 1 "Similar code block (5 lines)"
       "hash_detection")
  ∧ Duplicates._detect_duplicates_with_hashing [a; b] ≠ []
  ∧ Duplicates._detect_duplicates_with_hashing
      [Samples.text_file "a.py" Samples.shared_three;
       Samples.text_file "b.py" Samples.shared_three] = [].
Proof.
  intros a b.
  pose proof (hash_duplicates_windows [a; b]
    (Duplicates.Duplicate "b.py" 2 "a.py" 1 "Similar code block (5 lines)"
       "hash_detection")
    a b Samples.long_block (Samples.ln "import sys" :: Samples.long_block) 0 1
    [Samples.text_file "a.py" Samples.shared_three;
     Samples.text_file "b.py" Samples.shared_three])
    as (Hjust & Hpair & Hshort).
  split; [|split].
  - apply Hjust. vm_compute. apply list_elem_of_here.
  - apply Hpair; try reflexivity; try (vm_compute; lia); discriminate.
  - apply Hshort. intros f ls Hf Hls.
    assert (ls = Samples.shared_three) as ->.
    { apply elem_of_cons in Hf as [->|Hf];
        [|apply list_elem_of_singleton in Hf as ->];
        simpl in Hls; congruence. }
    vm_compute. lia.
Defined.

(** The claim of C4 fails in its two examples.  Two files that hold the same
    six lines of 55 normalized characters yield no pair, because no window of
    five of these lines reaches 50 characters; and two files that share
    three lines only yield a pair when their windows have the same hash. *)
Lemma six_lines_unreported_three_lines_reported :
  (50 <= Text.len (Text.normalize (String.concat "" Samples.short_block))
   ∧ Duplicates._detect_duplicates_with_hashing
       [Samples.text_file "a.py" Samples.short_block;
        Samples.text_file "b.py" Samples.short_block] = [])
  ∧ (Samples.collide_a !! 0%nat ≠ Samples.collide_b !! 0%nat
     ∧ Samples.collide_a !! 1%nat ≠ Samples.collide_b !! 1%nat
     ∧ drop 2 Samples.collide_a = drop 2 Samples.collide_b
     ∧ Duplicates._detect_duplicates_with_hashing
         [Samples.text_file "a.py" Samples.collide_a;
          Samples.text_file "b.py" Samples.collide_b]
       = [Duplicates.Duplicate "b.py" 1 "a.py" 1 "Similar code block (5 lines)"
            "hash_detection"]).
Proof.
  split; [split|split; [|split; [|split]]].
  - vm_compute. discriminate.
  - vm_compute. reflexivity.
  - vm_compute. congruence.
  - vm_compute. congruence.
  - reflexivity.
  - vm_compute. reflexivity.
Qed.

(** * Properties of the confidence value *)

Section ConfidenceFacts.
Import Analyzer.

Lemma filter_split_length {A} (P : A → Prop) `{∀ x, Decision (P x)} (l : list A) :
  (length (filter P l) + length (filter (λ x, ¬ P x) l) = length l)%nat.
Proof.
  induction l as [|x l IH]; [done|].
  rewrite !filter_cons. destruct (decide (P x)); destruct (decide (¬ P x));
    simpl; try lia; tauto.
Qed.

Lemma available_unavailable s : available_count s + unavailable_count s = 4.
Proof.
  unfold available_count, unavailable_count.
  pose proof (filter_split_length (λ t, t ∈ tools_used s) expected_tools) as H.
  simpl length in H at 3. lia.
Qed.

Lemma available_count_range s : 0 <= available_count s <= 4.
Proof.
  pose proof (available_unavailable s).
  unfold available_count, unavailable_count in *. lia.
Qed.

Lemma round_half_even_Z (n : Z) : round_half_even (inject_Z n) = n.
Proof.
  unfold round_half_even. rewrite Qfloor_Z.
  assert ((inject_Z n - inject_Z n ?= 1 # 2)%Q = Lt) as ->; [|done].
  unfold Qcompare. cbn. apply Z.compare_lt_iff. lia.
Qed.

Lemma round_half_even_proper (x y : Q) :
  (x == y)%Q → round_half_even x = round_half_even y.
Proof.
  intros Hxy. unfold round_half_even.
  rewrite (Qfloor_comp _ _ Hxy).
  assert ((x - inject_Z (Qfloor y) ?= 1 # 2)%Q
          = (y - inject_Z (Qfloor y) ?= 1 # 2)%Q) as ->; [|done].
  apply Qcompare_comp; [|reflexivity]. by rewrite Hxy.
Qed.

(** [round(_, 2)] leaves a multiple of 0.05 as it is. *)
Lemma round2_twentieth (k : Z) : (round2 (inject_Z k / 20) == inject_Z k / 20)%Q.
Proof.
  unfold round2.
  rewrite (round_half_even_proper _ (inject_Z (5 * k))), round_half_even_Z.
  - rewrite inject_Z_mult. field.
  - rewrite inject_Z_mult. field.
Qed.

Lemma round2_proper (x y : Q) : (x == y)%Q → (round2 x == round2 y)%Q.
Proof.
  intros Hxy. unfold round2.
  rewrite (round_half_even_proper (x * 100) (y * 100)); [reflexivity|].
  by rewrite Hxy.
Qed.

Lemma confidence_twentieths s :
  (Qmax (1 # 2)
     (1 - inject_Z (failed_count s) * (1 # 10)
        - inject_Z (4 - available_count s) * (1 # 20))
   == inject_Z (Z.max 10 (20 - 2 * failed_count s - (4 - available_count s))) / 20)%Q.
Proof.
  set (f := failed_count s). set (u := 4 - available_count s).
  assert ((1 - inject_Z f * (1 # 10) - inject_Z u * (1 # 20)
           == inject_Z (20 - 2 * f - u) / 20)%Q) as Hv.
  { unfold Z.sub. rewrite !inject_Z_plus, !inject_Z_opp, inject_Z_mult. field. }
  rewrite Hv.
  assert ((1 # 2 == inject_Z 10 / 20)%Q) as H10 by reflexivity.
  destruct (Z.le_gt_cases 10 (20 - 2 * f - u)) as [Hle|Hgt].
  - rewrite Z.max_r by done. apply Q.max_r. rewrite H10.
    apply Qmult_le_compat_r; [|done]. by rewrite <- Zle_Qle.
  - rewrite Z.max_l by lia. rewrite Q.max_l; [done|]. rewrite H10.
    apply Qmult_le_compat_r; [|done]. rewrite <- Zle_Qle. lia.
Qed.

End ConfidenceFacts.

(** C5: the confidence of the meta block is 1.0 minus 0.1 per failed tool
    minus 0.05 per expected tool that was not used, not below 0.5; it always
    lies between 0.5 and 1.0. *)
Theorem confidence_formula_and_bounds (s : Analyzer.self) :
  (Analyzer.meta_confidence (Analyzer._finalize_meta s)
   == Qmax (1 # 2)
        (1 - (1 # 10) * inject_Z (Z.of_nat (length (Analyzer.tools_failed s)))
           - (1 # 20) * inject_Z (Analyzer.unavailable_count s)))%Q
  ∧ (1 # 2 <= Analyzer.meta_confidence (Analyzer._finalize_meta s))%Q
  ∧ (Analyzer.meta_confidence (Analyzer._finalize_meta s) <= 1)%Q.
Proof.
  cbn [Analyzer._finalize_meta Analyzer.meta_confidence]. unfold Analyzer.confidence.
  pose proof (available_unavailable s) as Hsum.
  pose proof (available_count_range s) as Hrange.
  assert (0 <= Analyzer.failed_count s) as Hfailed
    by (unfold Analyzer.failed_count; lia).
  pose proof (confidence_twentieths s) as Hv.
  set (v := Qmax _ _) in *. set (k := Z.max 10 _) in *.
  assert (Analyzer.round2 v == inject_Z k / 20)%Q as Hr.
  { etransitivity; [apply round2_proper, Hv|apply round2_twentieth]. }
  assert (10 <= k <= 20) as Hk by (unfold k; lia).
  rewrite Hr. split; [|split].
  - rewrite <- Hv. unfold v.
    replace (4 - Analyzer.available_count s) with (Analyzer.unavailable_count s) by lia.
    unfold Analyzer.failed_count.
    apply Q.max_compat; [reflexivity|ring].
  - assert (1 # 2 == inject_Z 10 / 20)%Q as -> by reflexivity.
    apply Qmult_le_compat_r; [|done]. rewrite <- Zle_Qle. lia.
  - assert (1 == inject_Z 20 / 20)%Q as -> by reflexivity.
    apply Qmult_le_compat_r; [|done]. rewrite <- Zle_Qle. lia.
Qed.

(** * Properties of the dimension scores *)

Section ScoreFacts.
Import Analyzer.

Lemma count_severity_nonneg values issues : 0 <= count_severity values issues.
Proof. unfold count_severity. lia. Qed.

Lemma complexity_score_values functions :
  complexity_score functions ∈ [100; 80; 60; 40].
Proof.
  unfold complexity_score.
  repeat (destruct (Qle_bool _ _); [set_solver|]). set_solver.
Qed.

Lemma maintainability_score_values s p :
  score (analyze_maintainability s p).2 ∈ [0; 40; 60; 80; 100].
Proof.
  unfold analyze_maintainability.
  destruct (radon_cc p) as [?|?|rc out]; simpl; [set_solver..|].
  destruct (rc =? 0); simpl; [|set_solver].
  destruct out; simpl; [set_solver..|].
  pose proof (complexity_score_values (flat_map snd data)). set_solver.
Qed.

(** Without a successful run of the complexity tool the score stays at the
    value the result starts with. *)
Lemma maintainability_score_without_radon s p :
  (∀ data, radon_cc p ≠ Completed 0 (Json data)) →
  score (analyze_maintainability s p).2 = 0.
Proof.
  intros Hfail. unfold analyze_maintainability.
  destruct (radon_cc p) as [?|?|rc out]; simpl; [done..|].
  destruct (rc =? 0) eqn:Hrc; simpl; [|done].
  destruct out; simpl; [done..|].
  apply Z.eqb_eq in Hrc as ->. by destruct (Hfail data).
Qed.

Lemma performance_score_range detectors p :
  20 <= score (analyze_performance detectors p) <= 100.
Proof.
  unfold analyze_performance. cbn [score].
  set (issues := _ ++ _).
  pose proof (count_severity_nonneg ["high"] issues).
  pose proof (count_severity_nonneg ["medium"] issues).
  pose proof (count_severity_nonneg ["low"] issues). lia.
Qed.

Lemma security_score_range detectors s p :
  20 <= score (analyze_security detectors s p).2 <= 100.
Proof.
  unfold analyze_security.
  destruct (bandit p) as [?|?|? []]; cbn [snd score];
    match goal with
    | |- context [count_severity _ ?l] =>
        pose proof (count_severity_nonneg ["HIGH"; "high"] l);
        pose proof (count_severity_nonneg ["MEDIUM"; "medium"] l);
        pose proof (count_severity_nonneg ["LOW"; "low"] l)
    end; lia.
Qed.

Lemma scalability_score_range detectors p res :
  analyze_scalability detectors p = Ok res → 20 <= score res <= 100.
Proof.
  unfold analyze_scalability.
  destruct (CycleDetector._detect_circular_dependencies _); [|done..].
  intros [= <-]. cbn [score]. lia.
Qed.

Lemma reusability_score_floor duplicate_blocks dead_code extractable :
  20 <= reusability_score duplicate_blocks dead_code extractable.
Proof. unfold reusability_score. lia. Qed.

Lemma reusability_score_ceiling duplicate_blocks dead_code extractable :
  Z.min (extractable * 2) 10 <= duplicate_blocks * 3 + dead_code →
  reusability_score duplicate_blocks dead_code extractable <= 100.
Proof. unfold reusability_score. lia. Qed.

(** Where an entry of the dimension map comes from. *)
Lemma analyze_dimensions detectors requested p rep dim res :
  analyze detectors requested p = Ok rep → (dim, res) ∈ dimensions rep →
  (dim = "maintainability" ∧ res = (analyze_maintainability init p).2)
  ∨ (dim = "performance" ∧ res = analyze_performance detectors p)
  ∨ (dim = "security" ∧ ∃ s, res = (analyze_security detectors s p).2)
  ∨ (dim = "scalability" ∧ analyze_scalability detectors p = Ok res)
  ∨ (dim = "reusability" ∧ res = analyze_reusability detectors p).
Proof.
  unfold analyze.
  destruct (analyze_maintainability init p) as [sm rm] eqn:Hm.
  set (d1 := if bool_decide ("maintainability" ∈ requested)
             then (sm, [("maintainability", rm)]) else (init, [])).
  assert (∀ e, e ∈ d1.2 → e = ("maintainability", rm)) as H1.
  { unfold d1. case_bool_decide; simpl; set_solver. }
  destruct d1 as [s1 dims1]. simpl in H1.
  set (dims2 := if bool_decide ("performance" ∈ requested) then _ else _).
  assert (∀ e, e ∈ dims2 → e ∈ dims1 ∨ e = ("performance", analyze_performance detectors p)) as H2.
  { unfold dims2. case_bool_decide; set_solver. }
  clearbody dims2.
  destruct (analyze_security detectors s1 p) as [ss rs] eqn:Hs.
  set (d3 := if bool_decide ("security" ∈ requested) then _ else _).
  assert (∀ e, e ∈ d3.2 → e ∈ dims2 ∨ e = ("security", rs)) as H3.
  { unfold d3. case_bool_decide; simpl; set_solver. }
  destruct d3 as [s3 dims3]. simpl in H3.
  set (sc := if bool_decide ("scalability" ∈ requested) then _ else _).
  assert (∀ dims4, sc = Ok dims4 → ∀ e, e ∈ dims4 →
            e ∈ dims3 ∨ ∃ r, analyze_scalability detectors p = Ok r ∧ e = ("scalability", r)) as H4.
  { unfold sc. case_bool_decide; [|intros ? [= <-]; set_solver].
    destruct (analyze_scalability detectors p) as [r| |]; [|done..].
    intros ? [= <-] e [?|He%list_elem_of_singleton]%elem_of_app; subst; eauto. }
  destruct sc as [dims4| |]; [|done..]. specialize (H4 dims4 eq_refl).
  intros [= <-]. cbn [dimensions]. intros Hin.
  assert ((dim, res) ∈ dims4 ∨ (dim, res) = ("reusability", analyze_reusability detectors p)) as [Hin4|Heq].
  { case_bool_decide; set_solver. }
  - apply H4 in Hin4 as [Hin3|(r & Hr & [= -> ->])]; [|by eauto 10].
    apply H3 in Hin3 as [Hin2|[= -> ->]].
    + apply H2 in Hin2 as [Hin1|[= -> ->]]; [|by eauto 10].
      apply H1 in Hin1 as [= -> ->]. by left.
    + right; right; left. split; [done|]. exists s1. by rewrite Hs.
  - injection Heq as -> ->. eauto 10.
Qed.

End ScoreFacts.

(** C1 (as the code has it): the performance, security and scalability
    scores lie in [20, 100]; the maintainability score is 0, 40, 60, 80 or
    100, and it is 0 whenever the complexity tool did not run successfully;
    the reusability score is at least 20, and at most 100 when the bonus
    does not exceed the penalties. *)
Theorem dimension_score_ranges (detectors : Analyzer.pattern_detectors)
    (requested : list string) (p : Analyzer.project) (rep : Analyzer.report)
    (dim : string) (res : Analyzer.dimension_result) :
  Analyzer.analyze detectors requested p = Ok rep →
  (dim, res) ∈ Analyzer.dimensions rep →
  (dim ∈ ["performance"; "security"; "scalability"] →
     20 <= Analyzer.score res <= 100)
  ∧ (dim = "maintainability" →
       Analyzer.score res ∈ [0; 40; 60; 80; 100]
       ∧ ((∀ data, Analyzer.radon_cc p ≠ Analyzer.Completed 0 (Analyzer.Json data)) →
          Analyzer.score res = 0))
  ∧ (dim = "reusability" →
       20 <= Analyzer.score res
       ∧ (let '(duplicate_blocks, dead_code, extractable) :=
            Analyzer.reusability_counts detectors p in
          Z.min (extractable * 2) 10 <= duplicate_blocks * 3 + dead_code →
          Analyzer.score res <= 100)).
Proof.
  intros Hrep Hin.
  destruct (analyze_dimensions _ _ _ _ _ _ Hrep Hin)
    as [[-> ->]|[[-> ->]|[[-> [s ->]]|[[-> Hsc]|[-> ->]]]]].
  - split; [set_solver|]. split; [|done]. intros _. split.
    + apply maintainability_score_values.
    + apply maintainability_score_without_radon.
  - split; [|done]. intros _. apply performance_score_range.
  - split; [|done]. intros _. apply security_score_range.
  - split; [|done]. intros _. by eapply scalability_score_range.
  - split; [set_solver|]. split; [done|]. intros _.
    unfold Analyzer.analyze_reusability.
    destruct (Analyzer.reusability_counts detectors p) as [[dup dead] ext].
    cbn [Analyzer.score]. split.
    + apply reusability_score_floor.
    + apply reusability_score_ceiling.
Qed.

Lemma dimension_score_ranges_witness :
  ∃ rep res,
    Analyzer.analyze Samples.no_patterns Analyzer.valid_dimensions
      Samples.small_project = Ok rep
    ∧ ("scalability", res) ∈ Analyzer.dimensions rep
    ∧ 20 <= Analyzer.score res <= 100.
Proof.
  destruct (Analyzer.analyze Samples.no_patterns Analyzer.valid_dimensions
              Samples.small_project) as [rep| |] eqn:Hrep;
    [|vm_compute in Hrep; discriminate..].
  pose proof Hrep as Hc. vm_compute in Hc. injection Hc as Hc.
  assert (∃ res, ("scalability", res) ∈ Analyzer.dimensions rep) as [res Hin].
  { rewrite <- Hc. eexists. cbn [Analyzer.dimensions].
    do 3 apply list_elem_of_further. apply list_elem_of_here. }
  exists rep, res. split; [done|]. split; [done|].
  apply (dimension_score_ranges Samples.no_patterns Analyzer.valid_dimensions
           Samples.small_project rep "scalability" res Hrep Hin).
  set_solver.
Defined.

(** The claim of C1 fails twice: without the complexity tool the
    maintainability score is 0, and with one extractable pattern and nothing
    else found the reusability score is 102. *)
Lemma scores_outside_range :
  (∃ rep res,
     Analyzer.analyze Samples.no_patterns ["maintainability"]
       Samples.empty_project = Ok rep
     ∧ ("maintainability", res) ∈ Analyzer.dimensions rep
     ∧ Analyzer.score res = 0
     ∧ ¬ (20 <= Analyzer.score res <= 100))
  ∧ (∃ rep res,
       Analyzer.analyze Samples.one_extractable ["reusability"]
         Samples.empty_project = Ok rep
       ∧ ("reusability", res) ∈ Analyzer.dimensions rep
       ∧ Analyzer.score res = 102
       ∧ ¬ (20 <= Analyzer.score res <= 100)).
Proof.
  split.
  - eexists _, (Analyzer.DimensionResult 0 []).
    split; [vm_compute; reflexivity|].
    split; [apply list_elem_of_here|]. simpl. split; [done|lia].
  - eexists _, (Analyzer.DimensionResult 102 _).
    split; [vm_compute; reflexivity|].
    split; [apply list_elem_of_here|]. simpl. split; [done|lia].
Qed.

(** * Properties of the priority actions *)

Section PriorityFacts.
Import Analyzer.

Lemma nodup_keys_functional {V} (l : list (string * V)) k v1 v2 :
  NoDup l.*1 → (k, v1) ∈ l → (k, v2) ∈ l → v1 = v2.
Proof.
  induction l as [|[k' v'] l IH]; intros Hnd H1 H2.
  - by apply elem_of_nil in H1.
  - apply NoDup_cons in Hnd as [Hk Hnd].
    apply elem_of_cons in H1 as [H1|H1], H2 as [H2|H2]; simplify_eq; try done.
    + destruct Hk. apply (list_elem_of_fmap_2 fst) in H2. done.
    + destruct Hk. apply (list_elem_of_fmap_2 fst) in H1. done.
    + by apply IH.
Qed.

Lemma length_flat_map_le {A B} (f : A → list B) (l : list A) :
  (∀ x, length (f x) ≤ 1)%nat → (length (flat_map f l) ≤ length l)%nat.
Proof.
  intros Hf. induction l as [|x l IH]; simpl; [done|].
  rewrite length_app. specialize (Hf x). lia.
Qed.

Lemma insert_by_score_perm a l : insert_by_score a l ≡ₚ a :: l.
Proof.
  induction l as [|b l IH]; simpl; [done|].
  destruct (_ <? _); [done|].
  rewrite IH. apply Permutation_swap.
Qed.

Lemma sort_from_perm l : ∀ acc,
  foldl (λ sorted a, insert_by_score a sorted) acc l ≡ₚ acc ++ l.
Proof.
  induction l as [|a l IH]; intros acc; simpl.
  - by rewrite app_nil_r.
  - rewrite IH, insert_by_score_perm. simpl. apply Permutation_middle.
Qed.

Lemma sort_by_score_perm l : sort_by_score l ≡ₚ l.
Proof. apply (sort_from_perm l []). Qed.

Lemma insert_by_score_sorted a l :
  StronglySorted by_score l → StronglySorted by_score (insert_by_score a l).
Proof.
  induction 1 as [|b l Hl IH Hb]; simpl.
  - repeat constructor.
  - destruct (action_score a <? action_score b) eqn:Hab.
    + apply Z.ltb_lt in Hab. constructor; [by constructor|].
      constructor; [unfold by_score; lia|].
      eapply Forall_impl; [done|]. unfold by_score. intros; lia.
    + apply Z.ltb_ge in Hab. constructor; [done|].
      rewrite insert_by_score_perm. by constructor.
Qed.

Lemma sort_from_sorted l : ∀ acc,
  StronglySorted by_score acc →
  StronglySorted by_score (foldl (λ sorted a, insert_by_score a sorted) acc l).
Proof.
  induction l as [|a l IH]; intros acc Hacc; simpl; [done|].
  by apply IH, insert_by_score_sorted.
Qed.

Lemma action_for_inv a dim data :
  a ∈ action_for (dim, data) ↔
  dimension a = dim ∧ action_score a = score data
  ∧ ((score data < 60 ∧ priority a = "high"
      ∧ action_text a = "Address critical " +:+ dim +:+ " issues immediately")
     ∨ (60 <= score data < 75 ∧ priority a = "medium"
        ∧ action_text a = "Improve " +:+ dim +:+ " in next iteration")).
Proof.
  unfold action_for.
  destruct (score data <? 60) eqn:H60; [|destruct (score data <? 75) eqn:H75].
  - apply Z.ltb_lt in H60. rewrite list_elem_of_singleton. split.
    + intros ->. simpl. naive_solver.
    + destruct a; simpl. intros (-> & -> & [(_ & -> & ->)|(? & _)]); [done|lia].
  - apply Z.ltb_ge in H60. apply Z.ltb_lt in H75.
    rewrite list_elem_of_singleton. split.
    + intros ->. simpl. split; [done|]. split; [done|]. right. done.
    + destruct a; simpl. intros (-> & -> & [(? & _)|(_ & -> & ->)]); [lia|done].
  - apply Z.ltb_ge in H60. apply Z.ltb_ge in H75. split.
    + by intros ?%elem_of_nil.
    + intros (_ & _ & [(? & _)|(? & _)]); lia.
Qed.

Lemma action_for_length entry : (length (action_for entry) ≤ 1)%nat.
Proof.
  destruct entry as [dim data]. unfold action_for.
  destruct (_ <? 60); [simpl; lia|]. destruct (_ <? 75); simpl; lia.
Qed.

Lemma dimensions_at_most_five {V} (dims : list (string * V)) :
  NoDup dims.*1 → dims.*1 ⊆ valid_dimensions → (length dims ≤ 5)%nat.
Proof.
  intros Hnd Hsub. rewrite <- (length_fmap fst dims).
  change 5%nat with (length valid_dimensions).
  by apply submseteq_length, NoDup_submseteq.
Qed.

Lemma priority_actions_all dims :
  NoDup dims.*1 → dims.*1 ⊆ valid_dimensions →
  _generate_priority_actions dims = sort_by_score (flat_map action_for dims).
Proof.
  intros Hnd Hsub. unfold _generate_priority_actions. apply take_ge.
  rewrite sort_by_score_perm.
  etrans; [apply length_flat_map_le, action_for_length|].
  by apply dimensions_at_most_five.
Qed.

Lemma elem_of_priority_actions dims a :
  NoDup dims.*1 → dims.*1 ⊆ valid_dimensions →
  a ∈ _generate_priority_actions dims
  ↔ ∃ dim data, (dim, data) ∈ dims ∧ a ∈ action_for (dim, data).
Proof.
  intros Hnd Hsub. rewrite priority_actions_all, sort_by_score_perm by done.
  rewrite elem_of_flat_map. split.
  - intros ([dim data] & ? & ?). eauto.
  - intros (dim & data & ? & ?). eauto.
Qed.

End PriorityFacts.

(** C9: a dimension gets a "high" action exactly when its score is below 60,
    a "medium" action exactly when it is at least 60 and below 75, and none
    from 75 on; every action comes from a dimension; the list is in
    ascending order of score and has at most 5 entries. *)
Theorem priority_actions_bands
    (dims : list (string * Analyzer.dimension_result)) :
  NoDup dims.*1 → dims.*1 ⊆ Analyzer.valid_dimensions →
  let out := Analyzer._generate_priority_actions dims in
  (∀ dim data, (dim, data) ∈ dims →
     (Analyzer.score data < 60
      ↔ Analyzer.Action dim "high" (Analyzer.score data)
          ("Address critical " +:+ dim +:+ " issues immediately") ∈ out)
     ∧ (60 <= Analyzer.score data < 75
        ↔ Analyzer.Action dim "medium" (Analyzer.score data)
            ("Improve " +:+ dim +:+ " in next iteration") ∈ out)
     ∧ (75 <= Analyzer.score data →
        ∀ a, a ∈ out → Analyzer.dimension a ≠ dim))
  ∧ (∀ a, a ∈ out →
       ∃ data, (Analyzer.dimension a, data) ∈ dims
               ∧ Analyzer.action_score a = Analyzer.score data
               ∧ (Analyzer.priority a = "high" ∧ Analyzer.score data < 60
                  ∨ Analyzer.priority a = "medium" ∧ 60 <= Analyzer.score data < 75))
  ∧ StronglySorted Analyzer.by_score out
  ∧ (length out ≤ 5)%nat.
Proof.
  intros Hnd Hsub out.
  assert (∀ a dim data, (dim, data) ∈ dims → a ∈ out → Analyzer.dimension a = dim →
            a ∈ Analyzer.action_for (dim, data)) as Hown.
  { intros a dim data Hin Ha Hdim.
    apply elem_of_priority_actions in Ha as (dim' & data' & Hin' & Ha); [|done..].
    pose proof Ha as Ha'. apply action_for_inv in Ha' as (Hd & _).
    assert (dim' = dim) as -> by congruence.
    by rewrite (nodup_keys_functional dims dim data data'). }
  split; [|split; [|split]].
  - intros dim data Hin. split; [|split].
    + split.
      * intros Hlt. apply elem_of_priority_actions; [done..|].
        exists dim, data. split; [done|]. apply action_for_inv. simpl. naive_solver.
      * intros Ha. apply (Hown _ dim data) in Ha; [|done..].
        apply action_for_inv in Ha as (_ & _ & [(? & _)|(_ & Hp & _)]); [done|].
        simpl in Hp. discriminate.
    + split.
      * intros Hlt. apply elem_of_priority_actions; [done..|].
        exists dim, data. split; [done|]. apply action_for_inv. simpl. naive_solver.
      * intros Ha. apply (Hown _ dim data) in Ha; [|done..].
        apply action_for_inv in Ha as (_ & _ & [(_ & Hp & _)|(? & _)]); [|done].
        simpl in Hp. discriminate.
    + intros Hge a Ha Hdim. apply (Hown _ dim data) in Ha; [|done..].
      apply action_for_inv in Ha as (_ & _ & [(? & _)|(? & _)]); lia.
  - intros a Ha.
    apply elem_of_priority_actions in Ha as (dim & data & Hin & Ha); [|done..].
    apply action_for_inv in Ha as (<- & Hs & Hband).
    exists data. split; [done|]. split; [done|]. naive_solver.
  - unfold out. rewrite priority_actions_all by done.
    apply sort_from_sorted. constructor.
  - unfold out, Analyzer._generate_priority_actions.
    rewrite length_take. lia.
Qed.

Lemma priority_actions_bands_witness :
  let dims :=
    [("maintainability", Analyzer.DimensionResult 0 []);
     ("performance", Analyzer.DimensionResult 74 []);
     ("security", Analyzer.DimensionResult 20 []);
     ("scalability", Analyzer.DimensionResult 75 []);
     ("reusability", Analyzer.DimensionResult 60 [])] in
  Analyzer.Action "security" "high" 20
    "Address critical security issues immediately"
    ∈ Analyzer._generate_priority_actions dims
  ∧ StronglySorted Analyzer.by_score (Analyzer._generate_priority_actions dims).
Proof.
  intros dims.
  assert (NoDup dims.*1) as Hnd.
  { apply (bool_decide_unpack (NoDup dims.*1)). vm_compute. exact I. }
  assert (dims.*1 ⊆ Analyzer.valid_dimensions) as Hsub.
  { intros x Hx. exact Hx. }
  pose proof (priority_actions_bands dims Hnd Hsub) as (Hband & _ & Hsorted & _).
  split; [|exact Hsorted].
  apply (Hband "security" (Analyzer.DimensionResult 20 [])).
  - do 2 apply list_elem_of_further. apply list_elem_of_here.
  - simpl. lia.
Defined.

(** * The run and its configuration *)

Section ConfigurationFacts.
Import Analyzer.




Lemma analyze_keys detectors requested p rep :
  analyze detectors requested p = Ok rep →
  (dimensions rep).*1 = filter (λ d, d ∈ requested) valid_dimensions.
Proof.
  unfold analyze, valid_dimensions.
  destruct (analyze_maintainability init p) as [sm rm].
  rewrite !filter_cons, filter_nil.
  destruct (decide ("maintainability" ∈ requested)) as [H1|H1];
    [rewrite (bool_decide_eq_true_2 _ H1)|rewrite (bool_decide_eq_false_2 _ H1)];
  (destruct (decide ("performance" ∈ requested)) as [H2|H2];
    [rewrite (bool_decide_eq_true_2 _ H2)|rewrite (bool_decide_eq_false_2 _ H2)]);
  match goal with
  | |- context [analyze_security detectors ?s p] =>
      destruct (analyze_security detectors s p) as [ss rs]
  end;
  (destruct (decide ("security" ∈ requested)) as [H3|H3];
    [rewrite (bool_decide_eq_true_2 _ H3)|rewrite (bool_decide_eq_false_2 _ H3)]);
  (destruct (decide ("scalability" ∈ requested)) as [H4|H4];
    [rewrite (bool_decide_eq_true_2 _ H4);
     destruct (analyze_scalability detectors p) as [rc| |]; [|done..]
    |rewrite (bool_decide_eq_false_2 _ H4)]);
  (destruct (decide ("reusability" ∈ requested)) as [H5|H5];
    [rewrite (bool_decide_eq_true_2 _ H5)|rewrite (bool_decide_eq_false_2 _ H5)]);
  by intros [= <-].
Qed.


End ConfigurationFacts.




(** * What a result of the cycle detector means *)

Section CycleGuarantees.
Import CycleDetector Guarantees.

Implicit Types (g : import_graph) (st : dfs_state) (m : string).

Lemma index_lookup m path i : index m path = Some i → path !! i = Some m.
Proof.
  revert i. induction path as [|x path IH]; intros i; simpl; [done|].
  case_bool_decide as Hx.
  - intros [= <-]. by rewrite Hx.
  - destruct (index m path) as [j|]; simpl; [|done].
    intros [= <-]. by apply IH.
Qed.

Lemma chain_tail g x rest : chain g (x :: rest) → chain g rest.
Proof. destruct rest; simpl; tauto. Qed.

Lemma chain_drop g path : ∀ i, chain g path → chain g (drop i path).
Proof.
  induction path as [|x path IH]; intros [|i] Hc; simpl; try done.
  apply IH. by eapply chain_tail.
Qed.

Lemma chain_snoc g path m :
  chain g path → (∀ l, last path = Some l → edge g l m) → chain g (path ++ [m]).
Proof.
  induction path as [|x [|y path] IH]; intros Hc Hlast; simpl in *.
  - done.
  - split; [by apply Hlast|done].
  - destruct Hc as [Hxy Hc]. split; [done|]. by apply IH.
Qed.

Lemma last_drop_lookup (path : list string) i x :
  path !! i = Some x → last (drop i path) = last path.
Proof.
  revert i. induction path as [|y path IH]; intros [|i] Hi; simpl in *; try done.
  rewrite (IH i Hi). destruct path; [by destruct i|done].
Qed.

Lemma head_drop_lookup (path : list string) i x :
  path !! i = Some x → head (drop i path) = Some x.
Proof.
  revert i. induction path as [|y path IH]; intros [|i] Hi; simpl in *; try done.
  by apply IH.
Qed.

Lemma dfs_imports_some call g m imports (I : dfs_state → Prop)
    (P : list string → Prop) :
  (∀ st imported st' c, I st → imported ∈ imports → imported ∈ g.*1 →
     call st imported = Ok (st', c) →
     I st' ∧ (∀ l, c = Some l → P l)) →
  ∀ st st' c, I st → dfs_imports call g m st imports = Ok (st', Some c) → P c.
Proof.
  induction imports as [|imported rest IH]; intros Hcall st st' c Hst; simpl;
    [done|].
  assert (∀ st imported st' c, I st → imported ∈ rest → imported ∈ g.*1 →
            call st imported = Ok (st', c) →
            I st' ∧ (∀ l, c = Some l → P l)) as Hrest.
  { intros ???? ? Hin. apply Hcall; [done|]. by apply list_elem_of_further. }
  unfold in_graph. case_bool_decide as Hin; [|by apply IH].
  destruct (call st imported) as [[st1 cyc]| |] eqn:Hc; [|done..].
  destruct (Hcall st imported st1 cyc Hst (list_elem_of_here _ _) Hin Hc)
    as [Hst1 HP].
  destruct (truthy cyc) eqn:Ht; [|by apply IH].
  intros [= -> ->]. by apply HP.
Qed.

(** The state only ever gains visited modules (whatever is returned). *)
Lemma dfs_visited_mono g fuel : ∀ st m path st' c,
  dfs fuel g st m path = Ok (st', c) → visited st ⊆ visited st'.
Proof.
  induction fuel as [|fuel IH]; intros st m path st' c; simpl; [done|].
  case_bool_decide; [destruct (index m path); [|done]; by intros [= <- _]|].
  case_bool_decide; [by intros [= <- _]|].
  set (st1 := DfsState _ _). intros Hloop.
  assert (visited st1 ⊆ visited st'); [|simpl in *; set_solver].
  revert Hloop. generalize (graph_get g m). generalize st1. clear st1.
  intros st1 imports. revert st1.
  induction imports as [|imported rest IHl]; intros st1; simpl.
  - by intros [= <- _].
  - destruct (in_graph imported g); [|by apply IHl].
    destruct (dfs fuel g st1 imported (path ++ [m])) as [[st2 cyc]| |] eqn:Hc;
      [|done..].
    apply IH in Hc.
    destruct (truthy cyc); [intros [= <- _]; done|].
    intros Hrest%IHl. set_solver.
Qed.

(** What [dfs] returns as a cycle is a simple closed chain of followed
    imports. *)
Lemma dfs_sound g fuel : ∀ st m path st' c,
  chain g path → (∀ l, last path = Some l → edge g l m) → m ∈ g.*1 →
  NoDup path → (∀ x, x ∈ path → x ∈ visited st) →
  dfs fuel g st m path = Ok (st', Some c) → simple_closed g c.
Proof.
  induction fuel as [|fuel IH];
    intros st m path st' c Hchain Hlast Hm Hnd Hvis; simpl; [done|].
  case_bool_decide as Hrec.
  { destruct (index m path) as [i|] eqn:Hi; [|done]. intros [= _ <-].
    apply index_lookup in Hi.
    assert (is_Some (last path)) as [l Hl].
    { destruct path as [|x path]; [done|]. rewrite last_cons.
      destruct (last path); eauto. }
    split.
    - exists m, l. split; [by eapply head_drop_lookup|].
      split; [by erewrite last_drop_lookup|].
      split; [by apply chain_drop|by apply Hlast].
    - rewrite <- (take_drop i path) in Hnd. by apply NoDup_app in Hnd as (_ & _ & ?). }
  case_bool_decide as Hseen; [done|].
  set (st1 := DfsState _ _).
  apply (dfs_imports_some _ g m (graph_get g m)
           (λ st2, visited st1 ⊆ visited st2) (simple_closed g)); [|done].
  intros st2 imported st3 c' Hsub Himp Hin Hcall. split.
  { apply dfs_visited_mono in Hcall. set_solver. }
  intros l ->.
  eapply (IH st2 imported (path ++ [m])); [..|exact Hcall]; try done.
  - by apply chain_snoc.
  - rewrite last_snoc. intros ? [= <-]. done.
  - apply NoDup_app. split; [done|]. split; [|apply NoDup_singleton].
    intros x Hx ->%list_elem_of_singleton. by apply Hseen, Hvis.
  - intros x [Hx| ->%list_elem_of_singleton]%elem_of_app.
    + apply Hsub. simpl. apply elem_of_union_r. by apply Hvis.
    + apply Hsub. simpl. set_solver.
Qed.

Lemma detect_loop_sound g fuel modules : ∀ st deps out,
  modules ⊆ g.*1 →
  (∀ d, d ∈ deps → simple_closed g (cycle d) ∧ d = make_dep (cycle d)) →
  detect_loop fuel g modules st deps = Ok out →
  ∀ d, d ∈ out → simple_closed g (cycle d) ∧ d = make_dep (cycle d).
Proof.
  induction modules as [|m rest IH]; intros st deps out Hsub Hdeps; simpl.
  - by intros [= <-].
  - assert (rest ⊆ g.*1) by set_solver.
    case_bool_decide; [by apply IH|].
    destruct (dfs fuel g st m []) as [[st' c]| |] eqn:Hdfs; [|done..].
    destruct (truthy c) eqn:Ht; [|by apply IH].
    apply IH; [done|].
    intros d [Hd| ->%list_elem_of_singleton]%elem_of_app; [by apply Hdeps|].
    destruct c as [[|x l]|]; try done. simpl. split; [|done].
    eapply (dfs_sound g fuel st m []); [done|done|set_solver|constructor| |done].
    by intros ? ?%elem_of_nil.
Qed.








End CycleGuarantees.

(** X1: every cycle the detector reports is a real one: its modules are keys
    of the graph, each imports the next, the last imports the first, and no
    module occurs twice. *)
Theorem reported_cycles_are_simple_cycles (g : CycleDetector.import_graph)
    (deps : list CycleDetector.circular_dep) (d : CycleDetector.circular_dep) :
  CycleDetector._detect_circular_dependencies g = Ok deps → d ∈ deps →
  Guarantees.closed_chain g (CycleDetector.cycle d)
  ∧ NoDup (CycleDetector.cycle d)
  ∧ d = CycleDetector.make_dep (CycleDetector.cycle d).
Proof.
  intros Hrun Hd.
  destruct (detect_loop_sound g _ _ _ [] deps (reflexivity _)
              ltac:(by intros ? ?%elem_of_nil) Hrun d Hd) as [[??] ?].
  done.
Qed.

Lemma reported_cycles_are_simple_cycles_witness :
  Guarantees.closed_chain
    [("D", ["A"]); ("A", ["B"; "os"]); ("B", ["C"]); ("C", ["B"])] ["B"; "C"]
  ∧ NoDup ["B"; "C"].
Proof.
  destruct (reported_cycles_are_simple_cycles
    [("D", ["A"]); ("A", ["B"; "os"]); ("B", ["C"]); ("C", ["B"])]
    [CycleDetector.make_dep ["B"; "C"]] (CycleDetector.make_dep ["B"; "C"]))
    as (? & ? & _); [vm_compute; reflexivity|apply list_elem_of_here|done].
Defined.


(** * Bookkeeping of the analyzer object *)

Section TrackingFacts.
Import Analyzer Guarantees.

Lemma track_tool_counters s tool success reason :
  files_analyzed (_track_tool s tool success reason) = files_analyzed s
  ∧ files_skipped (_track_tool s tool success reason) = files_skipped s.
Proof.
  unfold _track_tool. destruct success; case_bool_decide; done.
Qed.

Lemma track_tool_nodup s tool success reason :
  NoDup (tools_used s) → NoDup (tools_failed s).*1 →
  NoDup (tools_used (_track_tool s tool success reason))
  ∧ NoDup (tools_failed (_track_tool s tool success reason)).*1.
Proof.
  intros Hused Hfailed. unfold _track_tool.
  destruct success; case_bool_decide as Hin; simpl; try done.
  - split; [|done]. apply NoDup_app. split; [done|].
    split; [|apply NoDup_singleton].
    intros x Hx ->%list_elem_of_singleton. done.
  - split; [done|]. rewrite fmap_app. apply NoDup_app. split; [done|].
    split; [|apply NoDup_singleton].
    intros x Hx ->%list_elem_of_singleton. done.
Qed.

Lemma track_tool_subset s tool success reason (tools : list string) :
  tool ∈ tools → tools_used s ⊆ tools → (tools_failed s).*1 ⊆ tools →
  tools_used (_track_tool s tool success reason) ⊆ tools
  ∧ (tools_failed (_track_tool s tool success reason)).*1 ⊆ tools.
Proof.
  intros Htool Hused Hfailed. unfold _track_tool.
  destruct success; case_bool_decide as Hin; simpl; try done.
  - split; [|done]. set_solver.
  - split; [done|]. rewrite fmap_app. set_solver.
Qed.

Lemma well_tracked_track s tool success reason :
  tool ∈ tracked_tools → well_tracked s →
  well_tracked (_track_tool s tool success reason).
Proof.
  intros Htool (Hu & Hf & Hus & Hfs & Hskip).
  destruct (track_tool_nodup s tool success reason Hu Hf) as [??].
  destruct (track_tool_subset s tool success reason _ Htool Hus Hfs) as [??].
  destruct (track_tool_counters s tool success reason) as [_ Hk].
  repeat split; try done. by rewrite Hk.
Qed.

Lemma well_tracked_init : well_tracked init.
Proof.
  unfold well_tracked. simpl.
  split; [apply NoDup_nil_2|]. split; [apply NoDup_nil_2|].
  split; [set_solver|]. split; [set_solver|done].
Qed.

Lemma radon_tracked : "radon" ∈ tracked_tools.
Proof. apply list_elem_of_here. Qed.

Lemma bandit_tracked : "bandit" ∈ tracked_tools.
Proof. apply list_elem_of_further, list_elem_of_here. Qed.

Lemma well_tracked_maintainability s p :
  well_tracked s → well_tracked (analyze_maintainability s p).1.
Proof.
  intros Hs. unfold analyze_maintainability.
  pose proof (well_tracked_track s "radon" true None radon_tracked Hs) as Hs1.
  destruct (radon_cc p) as [e|e|rc out]; cbn [fst].
  - apply well_tracked_track; [apply radon_tracked|done].
  - apply well_tracked_track; [apply radon_tracked|done].
  - destruct (rc =? 0); cbn [fst].
    + destruct out; cbn [fst].
      * apply well_tracked_track; [apply radon_tracked|done].
      * apply well_tracked_track; [apply radon_tracked|done].
      * destruct Hs1 as (? & ? & ? & ? & ?). unfold well_tracked. simpl. done.
    + apply well_tracked_track; [apply radon_tracked|done].
Qed.

Lemma well_tracked_security detectors s p :
  well_tracked s → well_tracked (analyze_security detectors s p).1.
Proof.
  intros Hs. unfold analyze_security.
  destruct (bandit p) as [e|e|rc []]; cbn [fst];
    repeat (apply well_tracked_track; [apply bandit_tracked|]); done.
Qed.

Lemma files_analyzed_security detectors s p :
  files_analyzed (analyze_security detectors s p).1 = files_analyzed s.
Proof.
  unfold analyze_security.
  destruct (bandit p) as [e|e|rc []]; cbn [fst];
    rewrite ?(proj1 (track_tool_counters _ _ _ _)); done.
Qed.

(** The parts of a report and where they come from. *)
Lemma analyze_parts detectors requested p rep :
  analyze detectors requested p = Ok rep →
  priority_actions rep = _generate_priority_actions (dimensions rep)
  ∧ report_project rep = project_path p
  ∧ ∃ s, well_tracked s ∧ report_meta rep = _finalize_meta s
         ∧ files_analyzed s
           = if bool_decide ("maintainability" ∈ requested)
             then files_analyzed (analyze_maintainability init p).1 else 0.
Proof.
  unfold analyze.
  pose proof (well_tracked_maintainability init p well_tracked_init) as Hm.
  destruct (analyze_maintainability init p) as [sm rm]. simpl in Hm.
  set (d1 := if bool_decide ("maintainability" ∈ requested) then _ else _).
  assert (well_tracked d1.1 ∧ files_analyzed d1.1
            = if bool_decide ("maintainability" ∈ requested)
              then files_analyzed sm else 0) as [H1 Hfiles].
  { unfold d1. case_bool_decide; simpl; [done|]. split; [apply well_tracked_init|done]. }
  destruct d1 as [s1 dims1]. simpl in H1, Hfiles.
  pose proof (well_tracked_security detectors s1 p H1) as Hsec.
  pose proof (files_analyzed_security detectors s1 p) as Hfsec.
  destruct (analyze_security detectors s1 p) as [ss rs]. simpl in Hsec, Hfsec.
  set (d3 := if bool_decide ("security" ∈ requested) then _ else _).
  assert (well_tracked d3.1 ∧ files_analyzed d3.1 = files_analyzed s1) as [H3 Hf3].
  { unfold d3. destruct (bool_decide ("security" ∈ requested)); simpl; done. }
  destruct d3 as [s3 dims3]. simpl in H3, Hf3.
  destruct (if bool_decide ("scalability" ∈ requested) then _ else _)
    as [dims4| |]; [|done..].
  intros [= <-]. simpl. split; [done|]. split; [done|].
  exists s3. split; [done|]. split; [done|]. congruence.
Qed.

Lemma well_tracked_counts s :
  well_tracked s → 0 <= failed_count s <= 2 ∧ 0 <= available_count s <= 2.
Proof.
  intros (Hu & Hf & Hus & Hfs & _). split.
  - unfold failed_count. rewrite <- (length_fmap fst).
    pose proof (submseteq_length _ _ (NoDup_submseteq _ _ Hf Hfs)) as Hle.
    simpl in Hle. lia.
  - unfold available_count, expected_tools.
    assert ("pylint" ∉ tools_used s) as Hpylint.
    { intros Hin%Hus. unfold tracked_tools in Hin. set_solver. }
    assert ("pydeps" ∉ tools_used s) as Hpydeps.
    { intros Hin%Hus. unfold tracked_tools in Hin. set_solver. }
    rewrite !filter_cons, filter_nil.
    rewrite (decide_False (P := "pylint" ∈ tools_used s)) by done.
    rewrite (decide_False (P := "pydeps" ∈ tools_used s)) by done.
    destruct (decide ("radon" ∈ tools_used s)), (decide ("bandit" ∈ tools_used s));
      simpl; lia.
Qed.

Lemma confidence_well_tracked s :
  well_tracked s → (6 # 10 <= confidence s)%Q ∧ (confidence s <= 9 # 10)%Q.
Proof.
  intros [[??] [??]]%well_tracked_counts. unfold confidence.
  pose proof (confidence_twentieths s) as Hv.
  set (v := Qmax _ _) in *. set (k := Z.max 10 _) in *.
  assert (round2 v == inject_Z k / 20)%Q as Hr.
  { etransitivity; [apply round2_proper, Hv|apply round2_twentieth]. }
  assert (12 <= k <= 18) as Hk by (unfold k; lia).
  rewrite Hr. split.
  - assert (6 # 10 == inject_Z 12 / 20)%Q as -> by reflexivity.
    apply Qmult_le_compat_r; [|done]. rewrite <- Zle_Qle. lia.
  - assert (9 # 10 == inject_Z 18 / 20)%Q as -> by reflexivity.
    apply Qmult_le_compat_r; [|done]. rewrite <- Zle_Qle. lia.
Qed.

End TrackingFacts.

(** X3: [_track_tool] keeps both lists free of duplicates, records the tool
    in the list that matches the outcome, keeps the reason of the first
    failure, and has no further effect when repeated. *)
Theorem track_tool_bookkeeping (s : Analyzer.self) (tool : string)
    (success : bool) (reason : option string) :
  NoDup (Analyzer.tools_used s) → NoDup (Analyzer.tools_failed s).*1 →
  let s' := Analyzer._track_tool s tool success reason in
  NoDup (Analyzer.tools_used s') ∧ NoDup (Analyzer.tools_failed s').*1
  ∧ (if success then tool ∈ Analyzer.tools_used s'
     else tool ∈ (Analyzer.tools_failed s').*1)
  ∧ (∀ first, success = false → (tool, first) ∈ Analyzer.tools_failed s →
       (tool, first) ∈ Analyzer.tools_failed s'
       ∧ Analyzer.tools_failed s' = Analyzer.tools_failed s)
  ∧ Analyzer._track_tool s' tool success reason = s'.
Proof.
  intros Hused Hfailed s'.
  destruct (track_tool_nodup s tool success reason Hused Hfailed) as [??].
  split; [done|]. split; [done|].
  assert (if success then tool ∈ Analyzer.tools_used s'
          else tool ∈ (Analyzer.tools_failed s').*1) as Hin.
  { unfold s', Analyzer._track_tool.
    destruct success; case_bool_decide; simpl; try done.
    - apply elem_of_app. right. apply list_elem_of_here.
    - rewrite fmap_app. apply elem_of_app. right. apply list_elem_of_here. }
  split; [done|]. split.
  - intros first -> Hfirst. unfold s', Analyzer._track_tool.
    rewrite bool_decide_eq_true_2; [done|].
    by apply (list_elem_of_fmap_2 fst) in Hfirst.
  - unfold Analyzer._track_tool at 1. destruct success.
    + by rewrite bool_decide_eq_true_2.
    + by rewrite bool_decide_eq_true_2.
Qed.

Lemma track_tool_bookkeeping_witness :
  let s := Analyzer._track_tool Analyzer.init "bandit" false (Some "not installed") in
  Analyzer.tools_failed (Analyzer._track_tool s "bandit" false (Some "timeout"))
  = [("bandit", "not installed")].
Proof.
  intros s.
  destruct (track_tool_bookkeeping s "bandit" false (Some "timeout"))
    as (_ & _ & _ & Hfirst & _).
  - vm_compute. apply NoDup_nil_2.
  - apply (bool_decide_unpack (NoDup _)). vm_compute. exact I.
  - destruct (Hfirst "not installed" eq_refl) as [_ ->].
    + apply list_elem_of_here.
    + reflexivity.
Defined.

(** X4: in the report of every run the confidence is at least 0.6 and at
    most 0.9: only radon and bandit are ever tracked, so two of the four
    expected tools always count as unavailable and at most two tools fail. *)
Theorem run_confidence_range (detectors : Analyzer.pattern_detectors)
    (requested : list string) (p : Analyzer.project) (rep : Analyzer.report) :
  Analyzer.analyze detectors requested p = Ok rep →
  (6 # 10 <= Analyzer.meta_confidence (Analyzer.report_meta rep))%Q
  ∧ (Analyzer.meta_confidence (Analyzer.report_meta rep) <= 9 # 10)%Q
  ∧ Analyzer.meta_tools_used (Analyzer.report_meta rep) ⊆ ["radon"; "bandit"]
  ∧ Analyzer.meta_tools_failed (Analyzer.report_meta rep) ⊆ ["radon"; "bandit"].
Proof.
  intros (_ & _ & s & Hs & -> & _)%analyze_parts. simpl.
  destruct (confidence_well_tracked s Hs) as [??].
  destruct Hs as (_ & _ & ? & ? & _). done.
Qed.

Lemma run_confidence_range_witness :
  ∃ rep, Analyzer.analyze Samples.no_patterns Analyzer.valid_dimensions
           Samples.small_project = Ok rep
         ∧ (6 # 10 <= Analyzer.meta_confidence (Analyzer.report_meta rep))%Q
         ∧ (Analyzer.meta_confidence (Analyzer.report_meta rep) <= 9 # 10)%Q.
Proof.
  destruct (Analyzer.analyze Samples.no_patterns Analyzer.valid_dimensions
              Samples.small_project) as [rep| |] eqn:Hrep;
    [|vm_compute in Hrep; discriminate..].
  exists rep. split; [done|].
  destruct (run_confidence_range _ _ _ _ Hrep) as (? & ? & _). done.
Defined.



(** * What a run returns *)

Section RunFacts.
Import Analyzer Guarantees.



Lemma report_keys_nodup detectors requested p rep :
  analyze detectors requested p = Ok rep →
  NoDup (dimensions rep).*1 ∧ (dimensions rep).*1 ⊆ valid_dimensions.
Proof.
  intros ->%analyze_keys. split.
  - apply NoDup_filter, (bool_decide_unpack (NoDup valid_dimensions)).
    vm_compute. exact I.
  - intros d Hd%list_elem_of_filter. tauto.
Qed.


End RunFacts.



(** X7: in the report of a run the slice to five actions drops nothing: the
    dimension names are distinct, every dimension with a score below 75 has
    its action, every action belongs to a dimension of the report and
    carries its score, and the actions are in ascending order of score. *)
Theorem report_actions_complete (detectors : Analyzer.pattern_detectors)
    (requested : list string) (p : Analyzer.project) (rep : Analyzer.report) :
  Analyzer.analyze detectors requested p = Ok rep →
  NoDup (Analyzer.dimensions rep).*1
  ∧ Analyzer.priority_actions rep
    ≡ₚ flat_map Analyzer.action_for (Analyzer.dimensions rep)
  ∧ StronglySorted Analyzer.by_score (Analyzer.priority_actions rep)
  ∧ (∀ dim res, (dim, res) ∈ Analyzer.dimensions rep → Analyzer.score res < 75 →
       ∃ a, a ∈ Analyzer.priority_actions rep ∧ Analyzer.dimension a = dim
            ∧ Analyzer.action_score a = Analyzer.score res)
  ∧ (∀ a, a ∈ Analyzer.priority_actions rep →
       ∃ res, (Analyzer.dimension a, res) ∈ Analyzer.dimensions rep
              ∧ Analyzer.action_score a = Analyzer.score res
              ∧ Analyzer.score res < 75).
Proof.
  intros Hrep. destruct (report_keys_nodup _ _ _ _ Hrep) as [Hnd Hsub].
  apply analyze_parts in Hrep as (-> & _).
  split; [done|]. rewrite priority_actions_all by done.
  split; [apply sort_by_score_perm|].
  split; [apply sort_from_sorted; constructor|]. split.
  - intros dim res Hin Hlt.
    destruct (Analyzer.action_for (dim, res)) as [|a l] eqn:Ha.
    { unfold Analyzer.action_for in Ha.
      destruct (_ <? 60) eqn:H60; [done|].
      destruct (_ <? 75) eqn:H75; [done|]. apply Z.ltb_ge in H75. lia. }
    assert (a ∈ Analyzer.action_for (dim, res)) as Hain
      by (rewrite Ha; apply list_elem_of_here).
    exists a. rewrite sort_by_score_perm, elem_of_flat_map.
    split; [by exists (dim, res)|].
    apply action_for_inv in Hain as (? & ? & _). done.
  - intros a. rewrite sort_by_score_perm, elem_of_flat_map.
    intros ([dim res] & Hin & (<- & ? & Hband)%action_for_inv).
    exists res. split; [done|]. split; [done|]. destruct Hband as [[??]|[??]]; lia.
Qed.

Lemma report_actions_complete_witness :
  ∃ rep, Analyzer.analyze Samples.no_patterns Analyzer.valid_dimensions
           Samples.small_project = Ok rep
         ∧ StronglySorted Analyzer.by_score (Analyzer.priority_actions rep).
Proof.
  destruct (Analyzer.analyze Samples.no_patterns Analyzer.valid_dimensions
              Samples.small_project) as [rep| |] eqn:Hrep;
    [|vm_compute in Hrep; discriminate..].
  exists rep. split; [done|].
  by destruct (report_actions_complete _ _ _ _ Hrep) as (_ & _ & ? & _).
Defined.



(** * The hash of the duplicate detector *)

Section HashFacts.
Import Text.

Lemma simple_hash_from_step h c rest :
  simple_hash_from h (String c rest) = simple_hash_from (33 * h + ord c) rest.
Proof. simpl. f_equal. rewrite Z.shiftl_mul_pow2 by lia. lia. Qed.

Lemma simple_hash_from_app text1 : ∀ h text2,
  simple_hash_from h (text1 +:+ text2)
  = simple_hash_from (simple_hash_from h text1) text2.
Proof. induction text1 as [|c text1 IH]; intros h text2; simpl; [done|apply IH]. Qed.

End HashFacts.

(** X9: the hash of a text is a number of 32 bits: the intermediate value,
    which starts at 5381 and is multiplied by 33 before each character is
    added, reduced modulo 2^32. *)
Theorem simple_hash_range (text : string) :
  0 <= Text.simple_hash text < 2 ^ 32
  ∧ Text.simple_hash text = Text.simple_hash_from 5381 text mod 2 ^ 32
  ∧ (∀ h c rest, Text.simple_hash_from h (String c rest)
                 = Text.simple_hash_from (33 * h + Text.ord c) rest).
Proof.
  assert (Text.simple_hash text = Text.simple_hash_from 5381 text mod 2 ^ 32) as Hmod.
  { unfold Text.simple_hash. change 0xFFFFFFFF with (Z.ones 32).
    by rewrite Z.land_ones. }
  split; [|split; [done|apply simple_hash_from_step]].
  rewrite Hmod. apply Z.mod_pos_bound. lia.
Qed.

(** X10: the hash does not tell two texts apart that differ in two adjacent
    characters with the same value of 33 times the first plus the second,
    whatever stands before and after them. *)
Theorem simple_hash_adjacent_collision (a b a' b' : ascii) (before after : string) :
  33 * Text.ord a + Text.ord b = 33 * Text.ord a' + Text.ord b' →
  Text.simple_hash (before +:+ String a (String b after))
  = Text.simple_hash (before +:+ String a' (String b' after)).
Proof.
  intros Hsame. unfold Text.simple_hash.
  rewrite !simple_hash_from_app, !simple_hash_from_step.
  do 2 f_equal. lia.
Qed.

Lemma simple_hash_adjacent_collision_witness :
  Text.simple_hash "first = 'b!' # note" = Text.simple_hash "first = 'aB' # note".
Proof.
  apply (simple_hash_adjacent_collision "b" "!" "a" "B" "first = '" "' # note").
  reflexivity.
Defined.

(** * Dictionaries in insertion order *)

Section DictFacts.
Import Ast DeadCode Dependencies Analyzer Guarantees.

Lemma dict_get_set {V} (d : list (string * V)) key value key' :
  dict_get (dict_set d key value) key'
  = if bool_decide (key = key') then Some value else dict_get d key'.
Proof.
  induction d as [|[k v] d IH]; simpl.
  - done.
  - destruct (decide (k = key)) as [->|Hk].
    + rewrite (bool_decide_eq_true_2 (key = key)) by done. simpl.
      by destruct (bool_decide (key = key')).
    + rewrite (bool_decide_eq_false_2 (k = key)) by done. simpl. rewrite IH.
      destruct (decide (key = key')) as [->|Hk'].
      * rewrite (bool_decide_eq_true_2 (key' = key')) by done.
        by rewrite bool_decide_eq_false_2.
      * by rewrite (bool_decide_eq_false_2 (key = key')) by done.
Qed.

Lemma graph_get_set (d : CycleDetector.import_graph) key value key' :
  CycleDetector.graph_get (dict_set d key value) key'
  = if bool_decide (key = key') then value else CycleDetector.graph_get d key'.
Proof.
  induction d as [|[k v] d IH]; simpl.
  - done.
  - destruct (decide (k = key)) as [->|Hk].
    + rewrite (bool_decide_eq_true_2 (key = key)) by done. simpl.
      by destruct (bool_decide (key = key')).
    + rewrite (bool_decide_eq_false_2 (k = key)) by done. simpl. rewrite IH.
      destruct (decide (key = key')) as [->|Hk'].
      * rewrite (bool_decide_eq_true_2 (key' = key')) by done.
        by rewrite bool_decide_eq_false_2.
      * by rewrite (bool_decide_eq_false_2 (key = key')) by done.
Qed.

Lemma dict_set_keys {V} (d : list (string * V)) key value :
  (dict_set d key value).*1
  = if bool_decide (key ∈ d.*1) then d.*1 else d.*1 ++ [key].
Proof.
  induction d as [|[k v] d IH]; [done|]. cbn [dict_set].
  destruct (decide (k = key)) as [->|Hk].
  - rewrite (bool_decide_eq_true_2 (key = key)) by done.
    rewrite !fmap_cons. cbn [fst].
    rewrite bool_decide_eq_true_2; [done|apply list_elem_of_here].
  - rewrite (bool_decide_eq_false_2 (k = key)) by done.
    rewrite !fmap_cons, IH. cbn [fst].
    destruct (decide (key ∈ d.*1)) as [Hin|Hin].
    + rewrite (bool_decide_eq_true_2 _ Hin).
      rewrite bool_decide_eq_true_2; [done|by apply list_elem_of_further].
    + rewrite (bool_decide_eq_false_2 _ Hin).
      rewrite bool_decide_eq_false_2; [done|].
      intros [?|?]%elem_of_cons; congruence.
Qed.

Lemma dict_set_nodup {V} (d : list (string * V)) key value :
  NoDup d.*1 → NoDup (dict_set d key value).*1.
Proof.
  intros Hnd. rewrite dict_set_keys. case_bool_decide as Hin; [done|].
  apply NoDup_app. split; [done|]. split; [|apply NoDup_singleton].
  intros x Hx ->%list_elem_of_singleton. done.
Qed.

Lemma elem_of_dict_set {V} (d : list (string * V)) key value entry :
  entry ∈ dict_set d key value → entry = (key, value) ∨ entry ∈ d.
Proof.
  induction d as [|[k v] d IH]; simpl.
  - intros ->%list_elem_of_singleton. by left.
  - case_bool_decide.
    + intros [->|?]%elem_of_cons; [by left|]. right. by apply list_elem_of_further.
    + intros [->|[?|?]%IH]%elem_of_cons; [right; apply list_elem_of_here|by left|].
      right. by apply list_elem_of_further.
Qed.

(** The loop of [check_dependencies], from any dictionary and for any
    table of packages. *)
Lemma check_dependencies_from (required : list (string * list string))
    find_spec dimensions : ∀ available dim,
  dict_get
    (foldl (λ available dim,
              match dict_get required dim with
              | None => available
              | Some packages =>
                  dict_set available dim
                    (forallb (check_package_installed find_spec) packages)
              end) available dimensions) dim
  = match dict_get required dim with
    | Some packages =>
        if bool_decide (dim ∈ dimensions)
        then Some (forallb (check_package_installed find_spec) packages)
        else dict_get available dim
    | None => dict_get available dim
    end.
Proof.
  induction dimensions as [|d dimensions IH]; intros available dim;
    cbn [foldl].
  - destruct (dict_get required dim); [|done].
    case_bool_decide as Hnil; [by apply elem_of_nil in Hnil|done].
  - rewrite IH. destruct (dict_get required dim) as [packages|] eqn:Hdim.
    + destruct (decide (dim ∈ dimensions)) as [Hin|Hin].
      * rewrite !bool_decide_eq_true_2; [done|by apply list_elem_of_further|done].
      * rewrite (bool_decide_eq_false_2 _ Hin).
        destruct (decide (d = dim)) as [->|Hne].
        -- rewrite Hdim, dict_get_set, !bool_decide_eq_true_2;
             [done|apply list_elem_of_here|done].
        -- rewrite (bool_decide_eq_false_2 (dim ∈ d :: dimensions))
             by (intros [?|?]%elem_of_cons; congruence).
           destruct (dict_get required d); [|done].
           by rewrite dict_get_set, bool_decide_eq_false_2.
    + destruct (dict_get required d) as [packages|] eqn:Hd; [|done].
      rewrite dict_get_set. case_bool_decide; [congruence|done].
Qed.

Lemma build_import_graph_snoc files f :
  build_import_graph (files ++ [f])
  = match tree f with
    | Some t => dict_set (build_import_graph files) (module_name f)
                  (flat_map imports_of_node (walk t))
    | None => build_import_graph files
    end.
Proof. unfold build_import_graph. by rewrite foldl_app. Qed.

Lemma build_import_graph_keys files :
  NoDup (build_import_graph files).*1
  ∧ ∀ k, k ∈ (build_import_graph files).*1
         ↔ ∃ f, f ∈ files ∧ parsed f ∧ module_name f = k.
Proof.
  induction files as [|f files [IHnd IHk]] using rev_ind.
  - split; [apply NoDup_nil_2|]. intros k. split.
    + by intros ?%elem_of_nil.
    + by intros (? & ?%elem_of_nil & _).
  - rewrite build_import_graph_snoc. unfold parsed in *.
    destruct (tree f) as [t|] eqn:Ht.
    + split; [by apply dict_set_nodup|]. intros k. rewrite dict_set_keys.
      assert (k ∈ (build_import_graph files).*1 ∨ k = module_name f
              ↔ ∃ f0, f0 ∈ files ++ [f] ∧ is_Some (tree f0) ∧ module_name f0 = k)
        as Hiff.
      { rewrite IHk. split.
        - intros [(f0 & ? & ? & ?)| ->].
          + exists f0. split; [apply elem_of_app; by left|done].
          + exists f. split; [apply elem_of_app; right; apply list_elem_of_here|].
            rewrite Ht. eauto.
        - intros (f0 & [?| ->%list_elem_of_singleton]%elem_of_app & ? & ?);
            [left; eauto|by right]. }
      rewrite <- Hiff. case_bool_decide as Hin.
      * split; [by left|]. intros [?| ->]; done.
      * rewrite elem_of_app, list_elem_of_singleton. done.
    + split; [done|]. intros k. rewrite IHk. split.
      * intros (f0 & ? & ? & ?). exists f0. split; [apply elem_of_app; by left|done].
      * intros (f0 & [?| ->%list_elem_of_singleton]%elem_of_app & Hp & ?);
          [eauto|]. rewrite Ht in Hp. by destruct Hp.
Qed.

End DictFacts.

(** X11: [check_dependencies] has an entry for a dimension exactly when the
    dimension is requested and is one of the five of [REQUIRED_PACKAGES]
    (other names are skipped); the entry tells whether all packages of the
    dimension are installed. *)
Theorem check_dependencies_entries (find_spec : string → bool)
    (dimensions : list string) (dim : string) :
  Dependencies.dict_get (Dependencies.check_dependencies find_spec dimensions) dim
  = if bool_decide (dim ∈ dimensions)
    then forallb (Dependencies.check_package_installed find_spec)
         <$> Dependencies.dict_get Dependencies.REQUIRED_PACKAGES dim
    else None.
Proof.
  unfold Dependencies.check_dependencies.
  rewrite (check_dependencies_from Dependencies.REQUIRED_PACKAGES).
  destruct (Dependencies.dict_get Dependencies.REQUIRED_PACKAGES dim);
    case_bool_decide; done.
Qed.

(** X12: the import graph of [analyze_scalability] has one key per module
    name of a parsed file, each once, whether the file imports anything or
    not; files that cannot be parsed add no key.  The imports stored for a
    module are those of the last parsed file with that module name. *)
Theorem import_graph_modules (before : list Ast.source_file) (f : Ast.source_file)
    (after : list Ast.source_file) (t : Ast.node) (k : string) :
  let graph := Analyzer.build_import_graph (before ++ f :: after) in
  NoDup graph.*1
  ∧ (k ∈ graph.*1
     ↔ ∃ f0, f0 ∈ before ++ f :: after ∧ Guarantees.parsed f0
             ∧ Analyzer.module_name f0 = k)
  ∧ (Ast.tree f = Some t →
     (∀ f0, f0 ∈ after → Guarantees.parsed f0 →
            Analyzer.module_name f0 ≠ Analyzer.module_name f) →
     Analyzer.module_name f ∈ graph.*1
     ∧ CycleDetector.graph_get graph (Analyzer.module_name f)
       = flat_map Analyzer.imports_of_node (Ast.walk t)).
Proof.
  intros graph. destruct (build_import_graph_keys (before ++ f :: after)) as [Hnd Hk].
  split; [done|]. split; [apply Hk|]. intros Ht Hafter. split.
  - apply Hk. exists f. split; [apply elem_of_app; right; apply list_elem_of_here|].
    split; [|done]. unfold Guarantees.parsed. rewrite Ht. eauto.
  - unfold graph. clear Hnd Hk graph.
    induction after as [|f' after IH] using rev_ind.
    + rewrite build_import_graph_snoc, Ht, graph_get_set.
      by rewrite bool_decide_eq_true_2.
    + replace (before ++ f :: after ++ [f']) with ((before ++ f :: after) ++ [f'])
        by (by rewrite <- app_assoc).
      rewrite build_import_graph_snoc.
      assert (∀ f0, f0 ∈ after → Guarantees.parsed f0 →
                Analyzer.module_name f0 ≠ Analyzer.module_name f) as Hrest.
      { intros f0 Hin. apply Hafter. apply elem_of_app. by left. }
      destruct (Ast.tree f') as [t'|] eqn:Ht'; [|by apply IH].
      rewrite graph_get_set, bool_decide_eq_false_2; [by apply IH|].
      apply Hafter; [apply elem_of_app; right; apply list_elem_of_here|].
      unfold Guarantees.parsed. rewrite Ht'. eauto.
Qed.

Lemma import_graph_modules_witness :
  "B" ∈ (Analyzer.build_import_graph
           (Analyzer.py_files Samples.cyclic_project)).*1
  ∧ CycleDetector.graph_get
      (Analyzer.build_import_graph (Analyzer.py_files Samples.cyclic_project)) "B"
    = ["A"].
Proof.
  destruct (import_graph_modules
    [Ast.SourceFile "proj/A.py" "A.py" (Some [Samples.ln "import B"])
       (Some (Ast.Other [Ast.Import [Ast.Alias "B" None] 1]))]
    (Ast.SourceFile "proj/B.py" "B.py" (Some [Samples.ln "import A"])
       (Some (Ast.Other [Ast.Import [Ast.Alias "A" None] 1])))
    [Ast.SourceFile "proj/C.py" "C.py" (Some [Samples.ln "import A"])
       (Some (Ast.Other [Ast.Import [Ast.Alias "A" None] 1]))]
    (Ast.Other [Ast.Import [Ast.Alias "A" None] 1]) "B") as (_ & _ & H).
  apply H; [reflexivity|].
  intros f0 ->%list_elem_of_singleton _. vm_compute. discriminate.
Defined.

(** * What the detectors report, and what they skip *)

Section DetectorGuarantees.
Import Ast Guarantees.





Lemma collect_node_public path st n :
  public_definitions st → public_definitions (DeadCode.collect_node path st n).
Proof.
  intros Hst.
  assert (∀ name lineno kind, Text.startswith_underscore name = false →
            kind = "function" ∨ kind = "class" →
            public_definitions (DeadCode.add_definition st path name lineno kind))
    as Hadd.
  { intros name lineno kind Hname Hkind entry [->|?]%elem_of_dict_set;
      [done|by apply Hst]. }
  destruct n as [name ? ?| |name ? ? ? ? ?| | |?|? ?|fn ?|]; simpl; try done.
  - destruct (Text.startswith_underscore name) eqn:Hn; [done|]. apply Hadd; eauto.
  - destruct (Text.startswith_underscore name) eqn:Hn; [done|]. apply Hadd; eauto.
  - by destruct fn.
Qed.

Lemma process_file_public st f :
  public_definitions st → public_definitions (DeadCode.process_file st f).
Proof.
  intros Hst. unfold DeadCode.process_file. destruct (tree f) as [t|]; [|done].
  unfold public_definitions. simpl.
  generalize (walk t). intros nodes. revert st Hst.
  induction nodes as [|n nodes IH]; intros st Hst; simpl; [done|].
  apply IH. by apply collect_node_public.
Qed.

Lemma scan_public files : public_definitions (DeadCode.scan files).
Proof.
  induction files as [|f files IH] using rev_ind.
  - by intros ? ?%elem_of_nil.
  - rewrite scan_snoc. by apply process_file_public.
Qed.

(** Each window adds at most one pair. *)
Lemma process_window_one path ls st i :
  (length (Duplicates.duplicates (Duplicates.process_window path ls st i))
   ≤ S (length (Duplicates.duplicates st)))%nat.
Proof.
  unfold Duplicates.process_window.
  destruct (_ <? 50); [lia|].
  destruct (Duplicates.block_hashes st !! _) as [bucket|]; simpl; [|lia].
  rewrite length_app. destruct (list_find _ bucket) as [[??]|]; simpl; lia.
Qed.

Lemma windows_at_most path ls starts : ∀ st,
  (length (Duplicates.duplicates (foldl (Duplicates.process_window path ls) st starts))
   ≤ length (Duplicates.duplicates st) + length starts)%nat.
Proof.
  induction starts as [|i starts IH]; intros st; simpl; [lia|].
  etrans; [apply IH|]. pose proof (process_window_one path ls st i). lia.
Qed.

Lemma window_count_cons f files :
  window_count (f :: files)
  = (match lines f with
     | Some ls => length (Duplicates.window_starts ls)
     | None => 0%nat
     end + window_count files)%nat.
Proof. done. Qed.

Lemma files_at_most files : ∀ st,
  (length (Duplicates.duplicates (foldl Duplicates.process_file st files))
   ≤ length (Duplicates.duplicates st) + window_count files)%nat.
Proof.
  induction files as [|f files IH]; intros st; [cbn; lia|].
  cbn [foldl]. etrans; [apply IH|]. rewrite window_count_cons.
  unfold Duplicates.process_file. destruct (lines f) as [ls|]; [|lia].
  pose proof (windows_at_most (relative_path f) ls (Duplicates.window_starts ls) st).
  lia.
Qed.

End DetectorGuarantees.

(** X13: the dead-code detector never reports a function or class whose name
    starts with an underscore; what it reports besides unused imports are
    functions and classes, with severity "low". *)
Theorem dead_code_skips_private_names (files : list Ast.source_file)
    (d : DeadCode.dead_item) :
  d ∈ DeadCode._detect_dead_code files →
  DeadCode.type d ≠ "unused_import" →
  Text.startswith_underscore (DeadCode.name d) = false
  ∧ (DeadCode.type d = "potentially_unused_function"
     ∨ DeadCode.type d = "potentially_unused_class")
  ∧ DeadCode.severity d = "low".
Proof.
  intros Hd Htype. apply elem_of_take in Hd as (i & Hd & _).
  apply list_elem_of_lookup_2 in Hd. unfold DeadCode.collect_dead_code in Hd.
  apply elem_of_app in Hd as [Hd|Hd].
  - by apply scan_dead_code_type in Hd.
  - apply elem_of_flat_map in Hd as (entry & Hentry & Hd).
    apply check_definition_inv in Hd as (-> & _).
    destruct (scan_public files entry Hentry) as (Hname & Hkind & _). simpl.
    split; [done|]. split; [|done].
    destruct Hkind as [-> | ->]; [by left|by right].
Qed.

Lemma dead_code_skips_private_names_witness :
  DeadCode._detect_dead_code
    [Samples.module_of "d.py"
       [Ast.FunctionDef "_helper" 1 [Ast.Other []];
        Ast.ClassDef "_Hidden" 3 (Some 4) [] [Ast.Other []] [];
        Ast.FunctionDef "spare" 6 [Ast.Other []]]]
  = [DeadCode.unused_definition (DeadCode.Definition_ "d.py" "spare" 6 "function")]
  ∧ Text.startswith_underscore "spare" = false.
Proof.
  split; [vm_compute; reflexivity|].
  apply (dead_code_skips_private_names
           [Samples.module_of "d.py"
              [Ast.FunctionDef "_helper" 1 [Ast.Other []];
               Ast.ClassDef "_Hidden" 3 (Some 4) [] [Ast.Other []] [];
               Ast.FunctionDef "spare" 6 [Ast.Other []]]]
           (DeadCode.unused_definition
              (DeadCode.Definition_ "d.py" "spare" 6 "function"))).
  - vm_compute. apply list_elem_of_here.
  - vm_compute. discriminate.
Defined.


(** X15: every window adds at most one pair, so the hash detector reports
    at most as many pairs as the readable files have windows of five lines,
    and never more than 50. *)
Theorem duplicates_at_most_one_per_window (files : list Ast.source_file) :
  (length (Duplicates.collect_duplicates files) ≤ Guarantees.window_count files)%nat
  ∧ (length (Duplicates._detect_duplicates_with_hashing files)
     ≤ Guarantees.window_count files `min` 50)%nat.
Proof.
  pose proof (files_at_most files (Duplicates.State [] ∅)) as Hle. simpl in Hle.
  split; [done|]. unfold Duplicates._detect_duplicates_with_hashing.
  rewrite length_take. unfold Duplicates.collect_duplicates. lia.
Qed.

(** X16: within one file two windows are paired only when they start more
    than five lines apart: a project of a single file of at most ten lines
    yields no pair. *)
Theorem single_short_file_has_no_duplicates (f : Ast.source_file)
    (ls : list string) :
  Ast.lines f = Some ls → (length ls ≤ 10)%nat →
  Duplicates._detect_duplicates_with_hashing [f] = [].
Proof.
  intros Hls Hlen.
  destruct (Duplicates._detect_duplicates_with_hashing [f]) as [|d rest] eqn:Hd;
    [done|exfalso].
  assert (d ∈ Duplicates.collect_duplicates [f]) as Hin.
  { assert (d ∈ Duplicates._detect_duplicates_with_hashing [f]) as Hd'
      by (rewrite Hd; apply list_elem_of_here).
    apply elem_of_take in Hd' as (i & Hi & _). by eapply list_elem_of_lookup_2. }
  apply collect_duplicates_justified in Hin
    as (t1 & t2 & (f1 & l1 & i1 & Hf1 & Hp1 & Hl1 & Hi1 & Hline1 & _)
        & (f2 & l2 & i2 & Hf2 & Hp2 & Hl2 & Hi2 & Hline2 & _) & _ & _ & _ & Hfar).
  apply list_elem_of_singleton in Hf1 as ->, Hf2 as ->.
  rewrite Hls in Hl1, Hl2. injection Hl1 as <-. injection Hl2 as <-.
  apply elem_of_window_starts in Hi1, Hi2.
  destruct Hfar as [Hne|Hgap]; [congruence|].
  unfold Duplicates.block_size in Hgap. lia.
Qed.

Lemma single_short_file_has_no_duplicates_witness :
  Duplicates._detect_duplicates_with_hashing
    [Samples.text_file "twice.py"
       (take 5 Samples.long_block ++ take 5 Samples.long_block)] = [].
Proof.
  apply (single_short_file_has_no_duplicates _
           (take 5 Samples.long_block ++ take 5 Samples.long_block));
    [reflexivity|vm_compute; lia].
Defined.


(** * Reported definitions and the command line *)

Section MoreGuarantees.
Import Ast Guarantees.

Lemma collect_node_keys path st n :
  NoDup (DeadCode.all_definitions st).*1 →
  NoDup (DeadCode.all_definitions (DeadCode.collect_node path st n)).*1.
Proof.
  intros Hnd.
  destruct n as [name ? ?| |name ? ? ? ? ?| | |?|? ?|fn ?|]; simpl; try done.
  - destruct (Text.startswith_underscore name); [done|]. by apply dict_set_nodup.
  - destruct (Text.startswith_underscore name); [done|]. by apply dict_set_nodup.
  - by destruct fn.
Qed.

Lemma scan_keys files : NoDup (DeadCode.all_definitions (DeadCode.scan files)).*1.
Proof.
  induction files as [|f files IH] using rev_ind; [apply NoDup_nil_2|].
  rewrite scan_snoc. unfold DeadCode.process_file.
  destruct (tree f) as [t|]; [|done]. simpl.
  generalize (walk t). intros nodes. revert IH.
  generalize (DeadCode.scan files). intros st.
  revert st. induction nodes as [|n nodes IHn]; intros st Hst; simpl; [done|].
  apply IHn. by apply collect_node_keys.
Qed.

Lemma filter_none {A} (P : A → Prop) `{∀ x, Decision (P x)} (l : list A) :
  (∀ x, x ∈ l → ¬ P x) → filter P l = [].
Proof.
  induction l as [|x l IH]; intros Hl; [done|].
  rewrite filter_cons. destruct (decide (P x)) as [Hx|Hx].
  - destruct (Hl x); [apply list_elem_of_here|done].
  - apply IH. intros y Hy. apply Hl. by apply list_elem_of_further.
Qed.

Lemma filter_sublist_mono {A} (P : A → Prop) `{∀ x, Decision (P x)}
    (l1 l2 : list A) :
  l1 `sublist_of` l2 → filter P l1 `sublist_of` filter P l2.
Proof.
  induction 1 as [|x l1 l2 _ IH|x l1 l2 _ IH]; [done| |].
  - rewrite !filter_cons. destruct (decide (P x)); [by constructor|done].
  - rewrite filter_cons. destruct (decide (P x)); [by constructor|done].
Qed.

Lemma reported_keys_sublist usages (defs : list (string * DeadCode.definition)) :
  (∀ entry, entry ∈ defs →
     entry.1 = DeadCode.def_file entry.2 +:+ ":" +:+ DeadCode.def_name entry.2) →
  dead_key <$> flat_map (DeadCode.check_definition usages) defs
    `sublist_of` defs.*1.
Proof.
  induction defs as [|entry defs IH]; intros Hkeys; [done|].
  cbn [flat_map]. rewrite fmap_app, (fmap_cons fst).
  assert (dead_key <$> flat_map (DeadCode.check_definition usages) defs
            `sublist_of` defs.*1) as Hrest.
  { apply IH. intros e He. apply Hkeys. by apply list_elem_of_further. }
  unfold DeadCode.check_definition at 1.
  destruct (_ && _).
  - rewrite (Hkeys entry) by apply list_elem_of_here. by constructor.
  - by constructor.
Qed.

(** ** Strings *)

Lemma string_app_cons (c : ascii) (s t : string) :
  String c s +:+ t = String c (s +:+ t).
Proof. done. Qed.

Lemma string_app_nil_r (s : string) : s +:+ "" = s.
Proof.
  induction s as [|c s IH]; [done|]. by rewrite string_app_cons, IH.
Qed.

Lemma string_app_assoc (s1 s2 s3 : string) :
  (s1 +:+ s2) +:+ s3 = s1 +:+ (s2 +:+ s3).
Proof.
  induction s1 as [|c s1 IH]; [done|]. by rewrite !string_app_cons, IH.
Qed.

Lemma rev_app_rev_app (s1 s2 s3 : string) :
  String.rev_app (String.rev_app s1 s2) s3 = String.rev_app s2 (s1 +:+ s3).
Proof.
  revert s2 s3. induction s1 as [|c s1 IH]; intros s2 s3; [done|].
  cbn [String.rev_app]. rewrite IH. cbn [String.rev_app].
  by rewrite string_app_cons.
Qed.

Lemma rev_rev (s : string) : String.rev (String.rev s) = s.
Proof.
  unfold String.rev. rewrite rev_app_rev_app. cbn [String.rev_app].
  apply string_app_nil_r.
Qed.

Lemma plain_cons (c : ascii) (s : string) :
  plain (String c s)
  = negb (Text.isspace c) && negb (bool_decide (c = ","%char)) && plain s.
Proof. done. Qed.

Lemma plain_rev_app (s1 s2 : string) :
  plain (String.rev_app s1 s2) = plain s1 && plain s2.
Proof.
  revert s2. induction s1 as [|c s1 IH]; intros s2; [done|].
  cbn [String.rev_app]. rewrite IH, !plain_cons.
  destruct (Text.isspace c), (bool_decide (c = ","%char)), (plain s1), (plain s2);
    done.
Qed.

Lemma lstrip_plain (s : string) : plain s = true → Text.lstrip s = s.
Proof.
  destruct s as [|c s]; [done|]. rewrite plain_cons. cbn [Text.lstrip].
  by destruct (Text.isspace c).
Qed.

Lemma lstrip_blank (pad s : string) :
  blank pad = true → Text.lstrip (pad +:+ s) = Text.lstrip s.
Proof.
  induction pad as [|c pad IH]; [done|]. cbn [blank].
  rewrite string_app_cons. cbn [Text.lstrip].
  destruct (Text.isspace c); [|done]. apply IH.
Qed.

Lemma strip_padded (pad s : string) :
  blank pad = true → plain s = true → Text.strip (pad +:+ s) = s.
Proof.
  intros Hpad Hs. unfold Text.strip.
  rewrite lstrip_blank, (lstrip_plain s) by done.
  rewrite lstrip_plain, rev_rev; [done|].
  unfold String.rev. rewrite plain_rev_app. by rewrite Hs.
Qed.

Lemma split_on_from_plain (s field rest : string) :
  plain s = true →
  Text.split_on_from "," field (s +:+ rest)
  = Text.split_on_from "," (field +:+ s) rest.
Proof.
  revert field. induction s as [|c s IH]; intros field Hs.
  - by rewrite string_app_nil_r.
  - rewrite plain_cons in Hs. apply andb_true_iff in Hs as [Hc Hs].
    apply andb_true_iff in Hc as [_ Hc]. apply negb_true_iff in Hc.
    rewrite string_app_cons. cbn [Text.split_on_from].
    rewrite Hc, IH by done. by rewrite string_app_assoc.
Qed.

Lemma split_on_from_blank (pad field rest : string) :
  blank pad = true →
  Text.split_on_from "," field (pad +:+ rest)
  = Text.split_on_from "," (field +:+ pad) rest.
Proof.
  revert field. induction pad as [|c pad IH]; intros field Hpad.
  - by rewrite string_app_nil_r.
  - cbn [blank] in Hpad. apply andb_true_iff in Hpad as [Hc Hpad].
    assert (bool_decide (c = ","%char) = false) as Hsep.
    { apply bool_decide_eq_false. intros ->. vm_compute in Hc. done. }
    rewrite string_app_cons. cbn [Text.split_on_from].
    rewrite Hsep, IH by done. by rewrite string_app_assoc.
Qed.

Lemma split_joined (pad : string) (names : list string) : ∀ name field,
  blank pad = true → Forall (λ n, plain n = true) (name :: names) →
  Text.split_on_from "," field (String.concat ("," +:+ pad) (name :: names))
  = (field +:+ name) :: ((λ n, pad +:+ n) <$> names).
Proof.
  induction names as [|next names IH]; intros name field Hpad Hnames.
  - apply Forall_cons in Hnames as [Hname _]. cbn [String.concat].
    rewrite <- (string_app_nil_r name) at 1.
    by rewrite split_on_from_plain.
  - apply Forall_cons in Hnames as [Hname Hnames].
    change (String.concat ("," +:+ pad) (name :: next :: names))
      with (name +:+ ("," +:+ pad) +:+ String.concat ("," +:+ pad) (next :: names)).
    rewrite split_on_from_plain by done.
    change (("," +:+ pad) +:+ String.concat ("," +:+ pad) (next :: names))
      with (String "," (pad +:+ String.concat ("," +:+ pad) (next :: names))).
    cbn [Text.split_on_from]. rewrite bool_decide_eq_true_2 by done.
    rewrite split_on_from_blank by done. rewrite IH by done. done.
Qed.

End MoreGuarantees.

(** X18: within one file a function or class name is reported as potentially
    unused once at most, however often it is defined there: the entries that
    are not unused imports have pairwise different keys [file:name]. *)
Theorem definitions_reported_once (files : list Ast.source_file) :
  NoDup (Guarantees.dead_key
           <$> Guarantees.reported_definitions (DeadCode._detect_dead_code files)).
Proof.
  apply (sublist_NoDup _
           (DeadCode.all_definitions (DeadCode.scan files)).*1);
    [apply scan_keys|].
  etrans; [|apply (reported_keys_sublist (DeadCode.all_usages (DeadCode.scan files)))].
  - apply fmap_sublist. unfold Guarantees.reported_definitions.
    etrans; [apply filter_sublist_mono, sublist_take|].
    unfold DeadCode.collect_dead_code. rewrite filter_app.
    rewrite (filter_none _ (DeadCode.dead_code _)).
    + apply sublist_filter.
    + intros d Hd%scan_dead_code_type. tauto.
  - intros entry Hentry. by destruct (scan_public files entry Hentry) as (_ & _ & ?).
Qed.

(** X19: the names of a [--dimensions] argument are recovered from their
    comma-separated list, with or without white space after the commas, when
    no name holds a comma or white space and the argument is not [all]. *)
Theorem dimensions_argument_round_trip (pad : string) (names : list string) :
  names ≠ [] → Guarantees.blank pad = true →
  Forall (λ n, Guarantees.plain n = true) names →
  String.concat ("," +:+ pad) names ≠ "all" →
  Analyzer.parse_dimensions
    (Analyzer.Args (String.concat ("," +:+ pad) names) false) = names.
Proof.
  intros Hne Hpad Hnames Hall. unfold Analyzer.parse_dimensions.
  cbn [Analyzer.arg_all Analyzer.arg_dimensions orb].
  rewrite bool_decide_eq_false_2 by done.
  destruct names as [|name names]; [done|].
  unfold Text.split_on. rewrite split_joined by done.
  rewrite fmap_cons. apply Forall_cons in Hnames as [Hname Hnames]. f_equal.
  - apply (strip_padded "" name); done.
  - rewrite <- list_fmap_compose. rewrite <- (list_fmap_id names) at 2.
    apply Forall_fmap_ext_1. eapply Forall_impl; [exact Hnames|].
    intros n Hn. by apply strip_padded.
Qed.

Lemma dimensions_argument_round_trip_witness :
  Analyzer.parse_dimensions (Analyzer.Args "security, performance" false)
  = ["security"; "performance"]
  ∧ Analyzer.parse_dimensions (Analyzer.Args "security,scalability" false)
    = ["security"; "scalability"].
Proof.
  split.
  - apply (dimensions_argument_round_trip " " ["security"; "performance"]);
      [discriminate|reflexivity|repeat constructor|vm_compute; discriminate].
  - apply (dimensions_argument_round_trip "" ["security"; "scalability"]);
      [discriminate|reflexivity|repeat constructor|vm_compute; discriminate].
Defined.

